(** * Github-MCP: the tool handlers over their upstream collaborators

    A shallow embedding of the handlers of [git_repo.py], [git_issues.py],
    [pull_requests.py] and [search_repo.py].  Every handler is a thin call
    site over the PyGithub client (and, for [push_to_github], over
    GitPython), so the embedding is a state-and-exception monad: the state
    records what the collaborator has been asked to do, the exception side
    is a Python exception on its way out of the handler. *)

From stdpp Require Import base option list strings gmap.
From Stdlib Require Import ZArith Lia.

Set Warnings "-register-all".

Open Scope string_scope.
Open Scope list_scope.
Open Scope Z_scope.

(** ** Python values *)

Module Py.

(** The exception classes the handlers can meet.  Every PyGithub failure
    (UnknownObjectException, RateLimitExceededException, ...) is a subclass
    of GithubException and is told apart by its HTTP status; the other
    constructors are not GithubExceptions.  Each carries its [str(e)]. *)
Inductive exn : Type :=
| GithubException (status : Z) (msg : string)
| TypeError (msg : string)
| ValueError (msg : string)
| IndexError (msg : string)
| ConnectionError (msg : string)
| InvalidGitRepositoryError (msg : string)
| GitCommandError (msg : string).

Definition str (e : exn) : string :=
  match e with
  | GithubException _ m | TypeError m | ValueError m | IndexError m
  | ConnectionError m | InvalidGitRepositoryError m | GitCommandError m => m
  end.

(** [isinstance(e, GithubException)] *)
Definition is_GithubException (e : exn) : bool :=
  match e with GithubException _ _ => true | _ => false end.

(** [isinstance(e, Exception)] *)
Definition is_Exception (e : exn) : bool := true.

(** [isinstance(e, InvalidGitRepositoryError)] *)
Definition is_InvalidGitRepositoryError (e : exn) : bool :=
  match e with InvalidGitRepositoryError _ => true | _ => false end.

(** The outcome of evaluating an expression. *)
Inductive res (A : Type) : Type :=
| Ret (a : A)
| Raise (e : exn).
Arguments Ret {A} a.
Arguments Raise {A} e.

(** JSON-compatible values (the [raw_data] of an upstream object, the dicts
    the search handlers build). *)
Inductive json : Type :=
| JNull
| JBool (b : bool)
| JInt (n : Z)
| JStr (s : string)
| JList (l : list json)
| JDict (kv : list (string * json)).

(** What [json.dumps] is applied to: a JSON-compatible value, or an object
    of a class the json module cannot serialise. *)
Inductive pyval : Type :=
| PJson (v : json)
| PObject (cls : string).

(** A text: the serialisation of a JSON value ([json.dumps] is left
    symbolic) or a literal or formatted string. *)
Inductive text : Type :=
| Dumps (v : json)
| Str (s : string).

Definition json_dumps (v : pyval) : res text :=
  match v with
  | PJson j => Ret (Dumps j)
  | PObject cls =>
      Raise (TypeError ("Object of type " +:+ cls +:+ " is not JSON serializable"))
  end.

(** [x is not None] as JSON: an optional string becomes the string or null. *)
Definition opt_str (o : option string) : json :=
  match o with Some s => JStr s | None => JNull end.

(** Truth value of an optional string: None and the empty string are falsy. *)
Definition truthy (o : option string) : bool :=
  match o with
  | None => false
  | Some s => negb (String.eqb s "")
  end.

(** [a or b] on strings. *)
Definition or_default (o : option string) (d : string) : string :=
  match o with
  | Some s => if String.eqb s "" then d else s
  | None => d
  end.

(** What a tool hands back to the dispatcher. *)
Inductive tool_result : Type :=
| Content (t : text)
    (* {"content": [{"type": "text", "text": t}]} *)
| Items (l : list json)
    (* a bare list of raw_data *)
| Search (total_count : Z) (key : string) (items : list json)
    (* {"total_count": n, key: [...]} *)
| ErrorDict (message : string)
    (* {"error": message} *)
| Handle (cls : string) (items : list json)
    (* a library object returned as it is (PaginatedList, Issue, ...) *).

End Py.
Export Py.

(** ** The state-and-exception monad *)

(** A computation over a state [S]: the state survives a raised exception,
    as the collaborator's side effects do. *)
Definition M (S A : Type) : Type := S -> res A * S.

Definition ret {S A} (a : A) : M S A := fun s => (Ret a, s).

Definition raise {S A} (e : exn) : M S A := fun s => (Raise e, s).

Definition bind {S A B} (m : M S A) (k : A -> M S B) : M S B :=
  fun s =>
    match m s with
    | (Ret a, s') => k a s'
    | (Raise e, s') => (Raise e, s')
    end.

(** [try: body except C as e: handler e], where [catches] is the test
    [isinstance(e, C)]. *)
Definition try_except {S A} (body : M S A) (catches : exn -> bool)
    (handler : exn -> M S A) : M S A :=
  fun s =>
    match body s with
    | (Ret a, s') => (Ret a, s')
    | (Raise e, s') => if catches e then handler e s' else (Raise e, s')
    end.

(** A pure expression that may raise. *)
Definition lift {S A} (r : res A) : M S A := fun s => (r, s).

Definition res_bind {A B} (r : res A) (k : A -> res B) : res B :=
  match r with
  | Ret a => k a
  | Raise e => Raise e
  end.

#[global] Instance M_ret {S} : MRet (M S) := fun A a => ret a.
#[global] Instance M_bind {S} : MBind (M S) := fun A B k m => bind m k.
#[global] Instance res_ret : MRet res := fun A a => Ret a.
#[global] Instance res_mbind : MBind res := fun A B k r => res_bind r k.

(** ** The PyGithub collaborator

    The client library is outside the repository.  The handlers see it as a
    set of methods that answer with a handle, an object carrying its
    [raw_data], or a PaginatedList, or that raise; every method invocation
    is recorded, which is what a call-counting stub of the client would
    count.

    An answer is what one invocation gives in the end.  The client that
    [Github(token)] builds may send a request again by itself, inside the
    invocation, before it answers or raises (the retry of the library, with
    its own waiting times); the requests it sends are not described here,
    only the invocations the handlers make and what comes back from them. *)

Module PyGithub.

(** An upstream object with its [raw_data] (Commit, Branch, Issue,
    IssueComment, PullRequest, File, Repository). *)
Record GithubObject : Type := mkObject { raw_data : json }.

(** A repository handle. *)
Record Repository : Type := mkRepository {
  repo_full_name : string;
  repo_raw_data : json
}.

(** A user handle. *)
Record NamedUser : Type := mkNamedUser { user_login : string }.

(** A PaginatedList as the handlers see it: the items the upstream yields,
    in its order, and the total it reports. *)
Record PaginatedList (A : Type) : Type := mkPaginatedList {
  elements : list A;
  totalCount : Z
}.
Arguments mkPaginatedList {A} elements totalCount.
Arguments elements {A} p.
Arguments totalCount {A} p.

(** The page size of the client, [Github(token)] leaves it at 30. *)
Definition client_per_page : nat := 30%nat.

(** The run-time state of a PaginatedList is the number of items it has
    fetched into [__elements]: [None] on a fresh list, of which no page has
    been requested, [Some n] once pages have been fetched.  [total] is the
    number of items the upstream holds.

    [_couldGrow()]: a next page is known.  It is on a fresh list; after a
    page has been fetched it is as long as items remain upstream. *)
Definition could_grow (total : nat) (loaded : option nat) : bool :=
  match loaded with
  | None => true
  | Some n => (n <? total)%nat
  end.

(** [len(self.__elements)] *)
Definition len_elements (loaded : option nat) : nat := default 0%nat loaded.

(** [_isBiggerThan(index)]:
    [len(self.__elements) > index or self._couldGrow()] *)
Definition is_bigger_than (total : nat) (loaded : option nat) (index : Z) : bool :=
  (index <? Z.of_nat (len_elements loaded)) || could_grow total loaded.

(** [__fetchToIndex(index)]:
    [while len(self.__elements) <= index and self._couldGrow(): self._grow()].
    Every round fetches one page of [client_per_page] items, so the loop
    ends with the page that holds [index], or with the last page. *)
Definition fetch_to_index (total : nat) (loaded : option nat) (index : Z) : option nat :=
  if (Z.of_nat (len_elements loaded) <=? index) && could_grow total loaded
  then Some (Nat.min total ((Z.to_nat index / client_per_page + 1) * client_per_page))
  else loaded.

(** [l[index]] on a Python list: a negative index counts from the end, an
    index outside the list is an IndexError ([None] here). *)
Definition py_getitem {A} (l : list A) (index : Z) : option A :=
  if index <? 0 then
    if - index <=? Z.of_nat (length l) then l !! Z.to_nat (Z.of_nat (length l) + index)
    else None
  else l !! Z.to_nat index.

(** Iterating [pl[start:stop]], the library's [_Slice.__iter__]:

      index = start
      while not finished(index):          (stop is not None and index >= stop)
          if list._isBiggerThan(index):
              yield list[index]           (fetchToIndex(index); elements[index])
              index += 1
          else:
              return

    [steps] is the number of rounds left before [index >= stop].  A list
    that could still grow is looked up at an index without knowing whether
    the upstream has that many items: when it has not, [elements[index]]
    raises IndexError.  This is what happens at the first index of a slice
    of a fresh list that starts after the last item, the empty list
    included.  Once the last page has been fetched the list cannot grow and
    an index beyond it ends the iteration. *)
Fixpoint slice_iter {A} (els : list A) (loaded : option nat) (index : Z) (steps : nat)
    : res (list A) :=
  match steps with
  | O => Ret []
  | S steps' =>
      if is_bigger_than (length els) loaded index then
        let loaded' := fetch_to_index (length els) loaded index in
        match py_getitem (take (len_elements loaded') els) index with
        | Some x =>
            rest ← slice_iter els loaded' (index + 1) steps'; Ret (x :: rest)
        | None => Raise (IndexError "list index out of range")
        end
      else Ret []
  end.

(** [pl[start:stop]] of a fresh list, iterated. *)
Definition getslice {A} (pl : PaginatedList A) (start stop : Z) : res (list A) :=
  slice_iter (elements pl) None start (Z.to_nat (stop - start)).

(** [pl[start:None]] of a fresh list, iterated: without a stop the
    iteration is never finished by the index; it ends when the list has no
    item at the index, after one round more than there are items at most. *)
Definition getslice_from {A} (pl : PaginatedList A) (start : Z) : res (list A) :=
  slice_iter (elements pl) None start (S (length (elements pl))).

(** [pl.get_page(n)]: the upstream's own page [n] (zero-based) at the
    client's page size; a page number below zero is served as the first
    page. *)
Definition get_page {A} (pl : PaginatedList A) (n : Z) : list A :=
  take client_per_page (drop (Z.to_nat n * client_per_page) (elements pl)).

(** Iterating the whole list. *)
Definition iterate {A} (pl : PaginatedList A) : list A := elements pl.

(** Items of the three searches. *)
Record RepoItem : Type := mkRepoItem {
  ri_full_name : string;
  ri_html_url : string;
  ri_description : option string;
  ri_stargazers_count : Z;
  ri_language : option string
}.

Record CodeItem : Type := mkCodeItem {
  ci_name : string;
  ci_path : string;
  ci_repository_full_name : string;
  ci_html_url : string
}.

Record UserItem : Type := mkUserItem {
  ui_login : string;
  ui_html_url : string;
  ui_type : string;
  ui_score : json
}.

(** A keyword argument of [repo.get_issues]. *)
Inductive kwarg : Type :=
| KStr (s : string)
| KInt (n : Z)
| KList (l : list string)
| KDatetime (iso : string).

(** One method invocation on the client or on a handle it gave out. *)
Inductive call : Type :=
| Get_repo (full_name : string)
| Get_user (login : option string)
| User_get_repo (login name : string)
| User_create_repo (name : string) (description : option string)
    (private auto_init : option bool)
| Repo_create_fork (repo : string) (organization : option string)
| Repo_get_commit (repo sha : string)
| Repo_get_commits (repo : string) (sha : option string)
| Repo_get_branches (repo : string)
| Repo_update_file (repo path message content sha branch : string)
| Repo_create_file (repo path message content branch : string)
| Repo_get_issue (repo : string) (number : Z)
| Repo_get_issues (repo : string) (kwargs : list (string * kwarg))
| Repo_create_issue (repo : string) (kwargs : list (string * kwarg))
| Issue_create_comment (repo : string) (number : Z) (body : string)
| Issue_get_comments (repo : string) (number : Z)
| Search_issues (query : string) (sort order : option string)
| Search_repositories (query : string)
| Search_code (query : string)
| Search_users (query : string)
| Repo_get_pull (repo : string) (number : Z)
| Repo_get_pulls (repo state sort direction : string)
| Pull_get_files (repo : string) (number : Z)
| Pull_merge (repo : string) (number : Z) (commit_title commit_message : option string)
    (merge_method : string).

(** The client: what each method invocation answers, given the invocations
    made before it (so that an answer may change from one invocation to the
    next). *)
Record Github : Type := mkGithub {
  answer_repo : list call -> call -> res Repository;
  answer_user : list call -> call -> res NamedUser;
  answer_object : list call -> call -> res GithubObject;
  answer_objects : list call -> call -> res (PaginatedList GithubObject);
  answer_write : list call -> call -> res pyval;
  answer_repos : list call -> call -> res (PaginatedList RepoItem);
  answer_codes : list call -> call -> res (PaginatedList CodeItem);
  answer_users : list call -> call -> res (PaginatedList UserItem)
}.

(** Invoking a method: the client answers from the history, the invocation
    is recorded whatever the answer. *)
Definition invoke {A} (answer : list call -> call -> res A) (c : call)
    : M (list call) A :=
  fun history => (answer history c, history ++ [c]).

End PyGithub.
Export PyGithub.

(** ** Arithmetic on Optional[int] fields *)

(** [a - b], [a * b] and [a + b] where the pydantic field may hold None:
    Python raises a TypeError on a None operand. *)
Definition py_sub (a : option Z) (b : Z) : res Z :=
  match a with
  | Some a => Ret (a - b)
  | None => Raise (TypeError "unsupported operand type(s) for -: 'NoneType' and 'int'")
  end.

Definition py_mul (a : Z) (b : option Z) : res Z :=
  match b with
  | Some b => Ret (a * b)
  | None => Raise (TypeError "unsupported operand type(s) for *: 'int' and 'NoneType'")
  end.

Definition py_add (a : Z) (b : option Z) : res Z :=
  match b with
  | Some b => Ret (a + b)
  | None => Raise (TypeError "unsupported operand type(s) for +: 'int' and 'NoneType'")
  end.

(** [start = (page - 1) * per_page] *)
Definition slice_start (page per_page : option Z) : res Z :=
  a ← py_sub page 1; py_mul a per_page.

(** [end = start + per_page] *)
Definition slice_end (start : Z) (per_page : option Z) : res Z :=
  py_add start per_page.

(** ** The GitPython collaborator

    push_to_github drives a local working copy through GitPython.  The
    library is outside the repository; what follows is the part of its
    behaviour the handler relies on: a working copy is a directory with or
    without a repository in it, a repository has an index, the commits HEAD
    reaches, a branch name and its remotes, and every git command may fail
    for a reason of the environment. *)

Module GitPython.

Record commit : Type := mkCommit {
  message : string;
  tree : list string
}.

(** The [.git] of a working copy.  [history] is what HEAD reaches, oldest
    commit first: HEAD is valid exactly when there is one. *)
Record repository : Type := mkRepo {
  index : list string;
  history : list commit;
  active_branch : string;
  remotes : list (string * string)
}.

Record workdir : Type := mkWorkdir {
  files : list string;
  dot_git : option repository
}.

(** A push that has been sent: the URL it went to, the refspec, and the
    commits offered.  What the receiving side does with it is not described:
    neither whether it takes the commits (GitPython returns normally from a
    push the other side rejects and reports the rejection in the PushInfo
    it returns, which the handlers never read), nor what changes where they
    land, be it a server or, when the URL names one, another directory of
    this machine. *)
Record push_record : Type := mkPush {
  push_url : string;
  push_refspec : string;
  push_commits : list commit
}.

(** The local machine: the working copies by path, as the commands run
    inside them leave them, the pushes that have been sent, and the number
    of git commands run so far. *)
Record world : Type := mkWorld {
  fs : gmap string workdir;
  pushes : list push_record;
  clock : nat
}.

Definition tick (w : world) : world :=
  mkWorld (fs w) (pushes w) (S (clock w)).

Definition set_repo (path : string) (r : repository) (w : world) : world :=
  match fs w !! path with
  | Some d => mkWorld (<[path := mkWorkdir (files d) (Some r)]> (fs w)) (pushes w) (clock w)
  | None => w
  end.

Definition repo_at (path : string) (w : world) : option repository :=
  d ← fs w !! path; dot_git d.

(** The commits of the working copy at [path]; none when it is no repository. *)
Definition commits_at (path : string) (w : world) : list commit :=
  match repo_at path w with
  | Some r => history r
  | None => []
  end.

Section Commands.

(** The environment may make the n-th git command fail (a full disk, a
    rejected push, a network error). *)
Variable fault : nat -> option exn.

Definition command {A} (act : M world A) : M world A :=
  fun w =>
    match fault (clock w) with
    | Some e => (Raise e, tick w)
    | None => act (tick w)
    end.

(** A command on the repository at [path]. *)
Definition on_repo {A} (path : string) (act : repository -> res A * repository)
    : M world A :=
  command (fun w =>
    match repo_at path w with
    | Some r => let '(a, r') := act r in (a, set_repo path r' w)
    | None => (Raise (InvalidGitRepositoryError path), w)
    end).

(** [os.path.exists(path)] *)
Definition path_exists (path : string) : M world bool :=
  fun w => (Ret (bool_decide (is_Some (fs w !! path))), w).

(** [Repo(path)] *)
Definition Repo (path : string) : M world string :=
  on_repo path (fun r => (Ret path, r)).

(** [Repo.init(path)]: an existing repository is left as it is. *)
Definition Repo_init (path : string) : M world string :=
  command (fun w =>
    match repo_at path w with
    | Some _ => (Ret path, w)
    | None => (Ret path, set_repo path (mkRepo [] [] "master" []) w)
    end).

(** [repo.git.add(all=True)] *)
Definition git_add_all (repo : string) : M world unit :=
  command (fun w =>
    match fs w !! repo with
    | Some (mkWorkdir fl (Some r)) =>
        (Ret (), set_repo repo (mkRepo fl (history r) (active_branch r) (remotes r)) w)
    | _ => (Raise (InvalidGitRepositoryError repo), w)
    end).

(** [repo.head.is_valid()] *)
Definition head_is_valid (repo : string) : M world bool :=
  fun w => (Ret (negb (bool_decide (commits_at repo w = []))), w).

(** [repo.index.commit(msg)]: a new commit of the index on top of HEAD. *)
Definition index_commit (repo : string) (msg : string) : M world unit :=
  on_repo repo (fun r =>
    (Ret (), mkRepo (index r) (history r ++ [mkCommit msg (index r)])
               (active_branch r) (remotes r))).

(** [repo.git.branch("-M", name)] *)
Definition git_branch_M (repo : string) (name : string) : M world unit :=
  on_repo repo (fun r => (Ret (), mkRepo (index r) (history r) name (remotes r))).

(** [[r.name for r in repo.remotes]] *)
Definition remote_names (repo : string) : M world (list string) :=
  fun w =>
    (Ret (match repo_at repo w with Some r => (remotes r).*1 | None => [] end), w).

(** [repo.create_remote(name, url)]; the handle is the repository and the
    remote's name. *)
Definition create_remote (repo name url : string) : M world (string * string) :=
  on_repo repo (fun r =>
    (Ret (repo, name),
     mkRepo (index r) (history r) (active_branch r) (remotes r ++ [(name, url)]))).

(** [repo.remote(name)] *)
Definition remote (repo name : string) : M world (string * string) :=
  mret (repo, name).

Definition url_of (name : string) (rs : list (string * string)) : option string :=
  p ← list_find (λ r, r.1 = name) rs; Some p.2.2.

(** [origin.push(refspec=...)]: what HEAD reaches is sent to the URL of the
    remote.  The push is recorded as sent; the directories of [fs] are left
    as they are, the one the URL may name included (see [push_record]). *)
Definition push (origin : string * string) (refspec : string) : M world unit :=
  command (fun w =>
    match repo_at origin.1 w with
    | Some r =>
        match url_of origin.2 (remotes r) with
        | Some url =>
            (Ret (), mkWorld (fs w) (pushes w ++ [mkPush url refspec (history r)]) (clock w))
        | None => (Raise (ValueError ("Remote named '" +:+ origin.2 +:+ "' didn't exist")), w)
        end
    | None => (Raise (InvalidGitRepositoryError origin.1), w)
    end).

End Commands.

End GitPython.
Export GitPython.

(** ** git_repo.py: commits, branches, file writes, the local push *)

Module GitRepo.

Record GetCommitParams : Type := mkGetCommitParams {
  gc_owner : string;
  gc_repo : string;
  gc_sha : string
}.

Record ListCommitsParams : Type := mkListCommitsParams {
  lc_owner : string;
  lc_repo : string;
  lc_sha : option string;
  lc_per_page : option Z;
  lc_page : option Z
}.

Record ListBranchesParams : Type := mkListBranchesParams {
  lb_owner : string;
  lb_repo : string;
  lb_per_page : option Z;
  lb_page : option Z
}.

Record CreateOrUpdateFileParams : Type := mkCreateOrUpdateFileParams {
  cf_owner : string;
  cf_repo : string;
  cf_path : string;
  cf_content : string;
  cf_message : string;
  cf_branch : string;
  cf_sha : option string
}.

Record CreateRepositoryParams : Type := mkCreateRepositoryParams {
  cr_name : string;
  cr_description : option string;
  cr_private : option bool;
  cr_autoInit : option bool
}.

Record ForkRepositoryParams : Type := mkForkRepositoryParams {
  fr_owner : string;
  fr_repo : string;
  fr_organization : option string
}.

(** The result every handler of this file gives for a caught exception. *)
Definition error_content (e : exn) : tool_result :=
  Content (Str ("Error: " +:+ str e)).

Section Handlers.

Variable gh : Github.

Definition get_commit (params : GetCommitParams) : M (list call) tool_result :=
  let owner := gc_owner params in
  let repo_name := gc_repo params in
  let sha := gc_sha params in
  try_except
    (repo ← invoke (answer_repo gh) (Get_repo (owner +:+ "/" +:+ repo_name));
     commit ← invoke (answer_object gh) (Repo_get_commit (repo_full_name repo) sha);
     mret (Content (Dumps (raw_data commit))))
    is_Exception
    (fun e => mret (error_content e)).

Definition list_commits (params : ListCommitsParams) : M (list call) tool_result :=
  let owner := lc_owner params in
  let repo_name := lc_repo params in
  let sha := lc_sha params in
  let per_page := lc_per_page params in
  let page := lc_page params in
  try_except
    (repo ← invoke (answer_repo gh) (Get_repo (owner +:+ "/" +:+ repo_name));
     commits ← invoke (answer_objects gh) (Repo_get_commits (repo_full_name repo) sha);
     start ← lift (slice_start page per_page);
     end_ ← lift (slice_end start per_page);
     commits_list ← lift (getslice commits start end_);
     let data := map raw_data commits_list in
     mret (Content (Dumps (JList data))))
    is_Exception
    (fun e => mret (error_content e)).

Definition list_branches (params : ListBranchesParams) : M (list call) tool_result :=
  let owner := lb_owner params in
  let repo_name := lb_repo params in
  let per_page := lb_per_page params in
  let page := lb_page params in
  try_except
    (repo ← invoke (answer_repo gh) (Get_repo (owner +:+ "/" +:+ repo_name));
     branches ← invoke (answer_objects gh) (Repo_get_branches (repo_full_name repo));
     start ← lift (slice_start page per_page);
     end_ ← lift (slice_end start per_page);
     branch_list ← lift (getslice branches start end_);
     let data := map raw_data branch_list in
     mret (Content (Dumps (JList data))))
    is_Exception
    (fun e => mret (error_content e)).

Definition create_or_update_file (params : CreateOrUpdateFileParams)
    : M (list call) tool_result :=
  let owner := cf_owner params in
  let repo_name := cf_repo params in
  let path := cf_path params in
  let content := cf_content params in
  let message := cf_message params in
  let branch := cf_branch params in
  let sha := cf_sha params in
  try_except
    (repo ← invoke (answer_repo gh) (Get_repo (owner +:+ "/" +:+ repo_name));
     if truthy sha then
       esp ← invoke (answer_write gh)
               (Repo_update_file (repo_full_name repo) path message content
                  (default "" sha) branch);
       t ← lift (json_dumps esp);
       mret (Content t)
     else
       resp ← invoke (answer_write gh)
                (Repo_create_file (repo_full_name repo) path message content branch);
       t ← lift (json_dumps resp);
       mret (Content t))
    is_Exception
    (fun e => mret (error_content e)).

Definition create_repository (params : CreateRepositoryParams)
    : M (list call) tool_result :=
  let name := cr_name params in
  let description := cr_description params in
  let is_private := cr_private params in
  let auto_init := cr_autoInit params in
  try_except
    (user ← invoke (answer_user gh) (Get_user None);
     repo ← invoke (answer_repo gh) (User_create_repo name description is_private auto_init);
     mret (Content (Dumps (repo_raw_data repo))))
    is_Exception
    (fun e => mret (error_content e)).

Definition fork_repository (params : ForkRepositoryParams) : M (list call) tool_result :=
  let owner := fr_owner params in
  let repo_name := fr_repo params in
  let organization := fr_organization params in
  try_except
    (repo ← invoke (answer_repo gh) (Get_repo (owner +:+ "/" +:+ repo_name));
     forked ←
       (if truthy organization
        then invoke (answer_repo gh) (Repo_create_fork (repo_full_name repo) organization)
        else invoke (answer_repo gh) (Repo_create_fork (repo_full_name repo) None));
     mret (Content (Dumps (repo_raw_data forked))))
    is_Exception
    (fun e => mret (error_content e)).

End Handlers.

Record GitPushLocalTOGIT : Type := mkGitPushLocalTOGIT {
  repo_path : string;
  remote_url : string;
  branch : string;
  commit_msg : option string
}.

Section Push.

Variable fault : nat -> option exn.

(** The two [json.dumps] of a fixed string after loading or initialising
    the repository have no effect and are left out. *)
Definition push_to_github (params : GitPushLocalTOGIT) : M world tool_result :=
  let repo_path := repo_path params in
  let remote_url := remote_url params in
  let branch := or_default (Some (branch params)) "main" in
  let commit_msg := or_default (commit_msg params) "Initial commit" in
  try_except
    (there ← path_exists repo_path;
     if negb there then mret (Content (Str "❌ Repo path does not exist."))
     else
       repo ← try_except (Repo fault repo_path) is_InvalidGitRepositoryError
                (fun _ => Repo_init fault repo_path);
       git_add_all fault repo;;
       valid ← head_is_valid repo;
       (if negb valid then index_commit fault repo commit_msg else mret ());;
       git_branch_M fault repo branch;;
       names ← remote_names repo;
       origin ←
         (if negb (bool_decide ("origin" ∈ names))
          then create_remote fault repo "origin" remote_url
          else remote repo "origin");
       push fault origin (branch +:+ ":" +:+ branch);;
       mret (Content (Str ("✅ Successfully pushed to " +:+ remote_url
                             +:+ " on branch '" +:+ branch +:+ "'."))))
    is_Exception
    (fun e => mret (Content (Str ("❌ Error: " +:+ str e)))).

End Push.

End GitRepo.

(** ** git_issues.py: issues and comments *)

Module GitIssues.

Record IssueParams : Type := mkIssueParams {
  ip_owner : string;
  ip_repo : string;
  ip_issue_number : Z
}.

Record CreateIssueParams : Type := mkCreateIssueParams {
  ci_owner : string;
  ci_repo : string;
  ci_title : string;
  ci_body : option string;
  ci_assignees : option (list string);
  ci_labels : option (list string);
  ci_milestone : option Z
}.

Record CommentParams : Type := mkCommentParams {
  cp_owner : string;
  cp_repo : string;
  cp_issue_number : Z;
  cp_body : string
}.

Record SearchParams : Type := mkSearchParams {
  sp_q : string;
  sp_sort : option string;
  sp_order : option string;
  sp_per_page : option Z;
  sp_page : option Z
}.

Record ListIssuesParams : Type := mkListIssuesParams {
  li_owner : string;
  li_repo : string;
  li_state : option string;
  li_labels : option (list string);
  li_sort : option string;
  li_direction : option string;
  li_since : option string;
  li_per_page : option Z;
  li_page : option Z
}.

Record CommentsListParams : Type := mkCommentsListParams {
  cl_owner : string;
  cl_repo : string;
  cl_issue_number : Z;
  cl_page : option Z;
  cl_per_page : option Z
}.

(** [{k: v for k, v in d.items() if v is not None}] *)
Definition drop_none (d : list (string * option kwarg)) : list (string * kwarg) :=
  omap (fun kv => v ← kv.2; Some (kv.1, v)) d.

Section Handlers.

Variable g : Github.

(** What [datetime.fromisoformat] says of a string: [None] when it accepts
    it, the message of the ValueError it raises otherwise.  The message
    depends on what is wrong with the string (a string that is no date at
    all, a month or a day out of range, ...) and on the interpreter, so it
    is left to the environment. *)
Variable iso_error : string -> option string.

(** [datetime.fromisoformat(x)] *)
Definition fromisoformat (x : option string) : res kwarg :=
  match x with
  | None => Raise (TypeError "fromisoformat: argument must be str")
  | Some s =>
      match iso_error s with
      | None => Ret (KDatetime s)
      | Some message => Raise (ValueError message)
      end
  end.

Definition get_issue (params : IssueParams) : M (list call) tool_result :=
  repo ← invoke (answer_repo g) (Get_repo (ip_owner params +:+ "/" +:+ ip_repo params));
  issue ← invoke (answer_object g)
            (Repo_get_issue (repo_full_name repo) (ip_issue_number params));
  mret (Content (Dumps (raw_data issue))).

Definition add_issue_comment (params : CommentParams) : M (list call) tool_result :=
  repo ← invoke (answer_repo g) (Get_repo (cp_owner params +:+ "/" +:+ cp_repo params));
  issue ← invoke (answer_object g)
            (Repo_get_issue (repo_full_name repo) (cp_issue_number params));
  comment ← invoke (answer_object g)
              (Issue_create_comment (repo_full_name repo) (cp_issue_number params)
                 (cp_body params));
  mret (Content (Dumps (raw_data comment))).

Definition search_issues (params : SearchParams) : M (list call) tool_result :=
  results ← invoke (answer_objects g)
              (Search_issues (sp_q params) (sp_sort params) (sp_order params));
  n ← lift (py_sub (sp_page params) 1);
  mret (Items (map raw_data (get_page results n))).

Definition create_issue (params : CreateIssueParams) : M (list call) tool_result :=
  repo ← invoke (answer_repo g) (Get_repo (ci_owner params +:+ "/" +:+ ci_repo params));
  let issue_data :=
    [ ("title", Some (KStr (ci_title params)));
      ("body", KStr <$> ci_body params);
      ("assignees", KList <$> ci_assignees params);
      ("labels", KList <$> ci_labels params);
      ("milestone", KInt <$> ci_milestone params) ] in
  let issue_data := drop_none issue_data in
  issue ← invoke (answer_object g) (Repo_create_issue (repo_full_name repo) issue_data);
  mret (Handle "Issue" [raw_data issue]).

Definition list_issues (params : ListIssuesParams) : M (list call) tool_result :=
  repo ← invoke (answer_repo g) (Get_repo (li_owner params +:+ "/" +:+ li_repo params));
  since ← lift (fromisoformat (li_since params));
  let issue_data :=
    [ ("state", KStr <$> li_state params);
      ("labels", KList <$> li_labels params);
      ("sort", KStr <$> li_sort params);
      ("direction", KStr <$> li_direction params);
      ("since", Some since) ] in
  let issue_data := drop_none issue_data in
  issue ← invoke (answer_objects g) (Repo_get_issues (repo_full_name repo) issue_data);
  mret (Handle "PaginatedList" (map raw_data (iterate issue))).

(** [comments[:per_page]]: with per_page None the slice has no stop. *)
Definition get_issue_comments (params : CommentsListParams) : M (list call) tool_result :=
  repo ← invoke (answer_repo g) (Get_repo (cl_owner params +:+ "/" +:+ cl_repo params));
  issue ← invoke (answer_object g)
            (Repo_get_issue (repo_full_name repo) (cl_issue_number params));
  comments ← invoke (answer_objects g)
               (Issue_get_comments (repo_full_name repo) (cl_issue_number params));
  page_items ←
    lift (match cl_per_page params with
          | Some stop => getslice comments 0 stop
          | None => getslice_from comments 0
          end);
  mret (Items (map raw_data page_items)).

End Handlers.

End GitIssues.

(** ** pull_requests.py *)

Module PullRequests.

Inductive PullRequestState : Type := open | closed | all.

Inductive PullRequestSort : Type := created | updated | popularity | long_running.

Inductive Direction : Type := asc | desc.

Inductive MergeMethod : Type := merge | squash | rebase.

Definition state_value (s : PullRequestState) : string :=
  match s with open => "open" | closed => "closed" | all => "all" end.

Definition sort_value (s : PullRequestSort) : string :=
  match s with
  | created => "created"
  | updated => "updated"
  | popularity => "popularity"
  | long_running => "long-running"
  end.

Definition direction_value (d : Direction) : string :=
  match d with asc => "asc" | desc => "desc" end.

Definition merge_method_value (m : MergeMethod) : string :=
  match m with merge => "merge" | squash => "squash" | rebase => "rebase" end.

Record GetPullRequestInput : Type := mkGetPullRequestInput {
  gp_owner : string;
  gp_repo : string;
  gp_pull_number : Z
}.

Record ListPullRequestsInput : Type := mkListPullRequestsInput {
  lp_owner : string;
  lp_repo : string;
  lp_state : option PullRequestState;
  lp_head : option string;
  lp_base : option string;
  lp_sort : option PullRequestSort;
  lp_direction : option Direction;
  lp_per_page : option Z;
  lp_page : option Z
}.

Record MergePullRequestInput : Type := mkMergePullRequestInput {
  mp_owner : string;
  mp_repo : string;
  mp_pull_number : Z;
  mp_commit_title : option string;
  mp_commit_message : option string;
  mp_merge_method : option MergeMethod
}.

Record GetPullRequestFilesInput : Type := mkGetPullRequestFilesInput {
  gf_owner : string;
  gf_repo : string;
  gf_pull_number : Z;
  gf_per_page : option Z;
  gf_page : option Z
}.

(** [x.value if x else d]: the members of a str-mixed Enum are truthy, all
    their values being non-empty. *)
Definition value_or {E} (value : E -> string) (x : option E) (d : string) : string :=
  match x with
  | Some v => value v
  | None => d
  end.

Definition not_found : tool_result := Content (Str "Repository not found.").

Definition error_content (e : exn) : tool_result :=
  Content (Str ("Error: " +:+ str e)).

Section Handlers.

Variable g : Github.

Definition get_repo (owner repo_name : string) : M (list call) (option Repository) :=
  try_except
    (user ← invoke (answer_user g) (Get_user (Some owner));
     repo ← invoke (answer_repo g) (User_get_repo (user_login user) repo_name);
     mret (Some repo))
    is_GithubException
    (fun _ => mret None).

Definition get_pull_request (data : GetPullRequestInput) : M (list call) tool_result :=
  repo ← get_repo (gp_owner data) (gp_repo data);
  match repo with
  | None => mret not_found
  | Some repo =>
      try_except
        (pr ← invoke (answer_object g)
                (Repo_get_pull (repo_full_name repo) (gp_pull_number data));
         mret (Content (Dumps (raw_data pr))))
        is_GithubException
        (fun e => mret (error_content e))
  end.

Definition list_pull_requests (data : ListPullRequestsInput) : M (list call) tool_result :=
  repo ← get_repo (lp_owner data) (lp_repo data);
  match repo with
  | None => mret not_found
  | Some repo =>
      try_except
        (pulls ← invoke (answer_objects g)
                   (Repo_get_pulls (repo_full_name repo)
                      (value_or state_value (lp_state data) "open")
                      (value_or sort_value (lp_sort data) "created")
                      (value_or direction_value (lp_direction data) "desc"));
         let pr_list := map raw_data (iterate pulls) in
         mret (Content (Dumps (JList pr_list))))
        is_GithubException
        (fun e => mret (error_content e))
  end.

Definition merge_pull_request (data : MergePullRequestInput) : M (list call) tool_result :=
  repo ← get_repo (mp_owner data) (mp_repo data);
  match repo with
  | None => mret not_found
  | Some repo =>
      try_except
        (pr ← invoke (answer_object g)
                (Repo_get_pull (repo_full_name repo) (mp_pull_number data));
         merge_result ← invoke (answer_object g)
                          (Pull_merge (repo_full_name repo) (mp_pull_number data)
                             (mp_commit_title data) (mp_commit_message data)
                             (value_or merge_method_value (mp_merge_method data) "merge"));
         mret (Content (Dumps (raw_data merge_result))))
        is_GithubException
        (fun e => mret (error_content e))
  end.

Definition get_pull_request_files (data : GetPullRequestFilesInput)
    : M (list call) tool_result :=
  repo ← get_repo (gf_owner data) (gf_repo data);
  match repo with
  | None => mret not_found
  | Some repo =>
      try_except
        (pr ← invoke (answer_object g)
                (Repo_get_pull (repo_full_name repo) (gf_pull_number data));
         files ← invoke (answer_objects g)
                   (Pull_get_files (repo_full_name repo) (gf_pull_number data));
         let file_list := map raw_data (iterate files) in
         mret (Content (Dumps (JList file_list))))
        is_GithubException
        (fun e => mret (error_content e))
  end.

End Handlers.

End PullRequests.

(** ** search_repo.py *)

Module SearchRepo.

Record SearchReposParams : Type := mkSearchReposParams {
  sr_q : string;
  sr_per_page : option Z;
  sr_page : option Z
}.

Record SearchCodeParams : Type := mkSearchCodeParams {
  sc_q : string;
  sc_sort : option string;
  sc_order : option string;
  sc_per_page : option Z;
  sc_page : option Z
}.

Record SearchUsersParams : Type := mkSearchUsersParams {
  su_q : string;
  su_sort : option string;
  su_order : option string;
  su_per_page : option Z;
  su_page : option Z
}.

Definition repo_dict (repo : RepoItem) : json :=
  JDict [ ("name", JStr (ri_full_name repo));
          ("url", JStr (ri_html_url repo));
          ("description", opt_str (ri_description repo));
          ("stars", JInt (ri_stargazers_count repo));
          ("language", opt_str (ri_language repo)) ].

Definition code_dict (code : CodeItem) : json :=
  JDict [ ("name", JStr (ci_name code));
          ("path", JStr (ci_path code));
          ("repository", JStr (ci_repository_full_name code));
          ("html_url", JStr (ci_html_url code)) ].

Definition user_dict (user : UserItem) : json :=
  JDict [ ("login", JStr (ui_login user));
          ("html_url", JStr (ui_html_url user));
          ("type", JStr (ui_type user));
          ("score", ui_score user) ].

Section Handlers.

Variable g : Github.

Definition search_repositories (params : SearchReposParams) : M (list call) tool_result :=
  try_except
    (result ← invoke (answer_repos g) (Search_repositories (sr_q params));
     start ← lift (slice_start (sr_page params) (sr_per_page params));
     end_ ← lift (slice_end start (sr_per_page params));
     items ← lift (getslice result start end_);
     let repos := map repo_dict items in
     mret (Search (totalCount result) "repositories" repos))
    is_GithubException
    (fun e => mret (ErrorDict (str e))).

Definition search_code (params : SearchCodeParams) : M (list call) tool_result :=
  try_except
    (result ← invoke (answer_codes g) (Search_code (sc_q params));
     start ← lift (slice_start (sc_page params) (sc_per_page params));
     end_ ← lift (slice_end start (sc_per_page params));
     items ← lift (getslice result start end_);
     let codes := map code_dict items in
     mret (Search (totalCount result) "code_results" codes))
    is_GithubException
    (fun e => mret (ErrorDict (str e))).

Definition search_users (params : SearchUsersParams) : M (list call) tool_result :=
  try_except
    (result ← invoke (answer_users g) (Search_users (su_q params));
     start ← lift (slice_start (su_page params) (su_per_page params));
     end_ ← lift (slice_end start (su_per_page params));
     items ← lift (getslice result start end_);
     let users := map user_dict items in
     mret (Search (totalCount result) "users" users))
    is_GithubException
    (fun e => mret (ErrorDict (str e))).

End Handlers.

End SearchRepo.

(** ** git_utils.py: commit and push of the current directory *)

Module GitUtils.

(** [repo.remote(name=...)]: the handle of a remote that exists, a
    ValueError otherwise.  The remotes are read from the configuration, no
    git command is run. *)
Definition remote_by_name (repo name : string) : M world (string * string) :=
  fun w =>
    match repo_at repo w with
    | Some r =>
        if bool_decide (name ∈ (remotes r).*1) then (Ret (repo, name), w)
        else (Raise (ValueError ("Remote named '" +:+ name +:+ "' didn't exist")), w)
    | None => (Raise (InvalidGitRepositoryError repo), w)
    end.

Section CommitAndPush.

Variable fault : nat -> option exn.

Definition commit_and_push (commit_message repo_path remote_name branch : string)
    : M world unit :=
  repo ← Repo fault repo_path;
  git_add_all fault repo;;
  index_commit fault repo commit_message;;
  origin ← remote_by_name repo remote_name;
  push fault origin (branch +:+ ":" +:+ branch).

(** The two lines the module runs when it is loaded: the answer to the
    prompt is the commit message, the current directory the repository, the
    remote and the branch are left at their defaults. *)
Definition script (answer cwd : string) : M world unit :=
  commit_and_push answer cwd "origin" "main".

End CommitAndPush.

End GitUtils.

(** ** What the spec calls a page *)

(** [out] is the page [(page, per_page)] of [upstream]: at most [per_page]
    items, the i-th being the upstream item at position
    [(page - 1) * per_page + i], in upstream order. *)
Definition is_page {A} (upstream out : list A) (page per_page : Z) : Prop :=
  Z.of_nat (length out) ≤ per_page ∧
  ∀ i : nat,
    out !! i =
      if bool_decide (Z.of_nat i < per_page)
      then upstream !! (Z.to_nat ((page - 1) * per_page) + i)%nat
      else None.

(** The calls a run adds to the history it starts from. *)
Definition made {A} (m : M (list call) A) (history : list call) : list call :=
  drop (length history) (m history).2.

(** ** A stub upstream

    The repository acme/widgets with three objects behind every listing. *)

Definition widgets : Repository := mkRepository "acme/widgets" (JStr "acme/widgets").

Definition item (n : Z) : GithubObject := mkObject (JInt n).

Definition three : PaginatedList GithubObject :=
  mkPaginatedList [item 1; item 2; item 3] 3.

Definition stub : Github :=
  mkGithub
    (fun _ _ => Ret widgets)
    (fun _ _ => Ret (mkNamedUser "acme"))
    (fun _ _ => Ret (item 42))
    (fun _ _ => Ret three)
    (fun _ _ => Ret (PObject "ContentFile"))
    (fun _ _ => Ret (mkPaginatedList [] 0))
    (fun _ _ => Ret (mkPaginatedList [] 0))
    (fun _ _ => Ret (mkPaginatedList [] 0)).

(** An upstream on which the repository lookup fails with [e] on the first
    call ever made and succeeds afterwards. *)
Definition flaky (e : exn) : Github :=
  mkGithub
    (fun history _ => match history with [] => Raise e | _ => Ret widgets end)
    (fun history _ => match history with [] => Raise e | _ => Ret (mkNamedUser "acme") end)
    (fun _ _ => Ret (item 42))
    (fun _ _ => Ret three)
    (fun _ _ => Ret (PObject "ContentFile"))
    (fun _ _ => Ret (mkPaginatedList [] 0))
    (fun _ _ => Ret (mkPaginatedList [] 0))
    (fun _ _ => Ret (mkPaginatedList [] 0)).

Definition rate_limited : exn :=
  GithubException 429 "429 API rate limit exceeded".

Definition unknown_object : exn :=
  GithubException 404 "404 Not Found".


(** Calls can be compared. *)
#[global] Instance kwarg_eq_dec : EqDecision kwarg.
Proof. solve_decision. Defined.

#[global] Instance call_eq_dec : EqDecision call.
Proof. solve_decision. Defined.



(** The spec's validation contract: a run that rejects its request makes no
    upstream call. *)
Definition no_upstream_call (run : M (list call) tool_result) (history : list call) : Prop :=
  made run history = [].

(** The spec's reading of the sha field of create_or_update_file, on a
    repository that resolves to [repo]: a creation when the field is absent,
    an update of the file with that sha when it is present. *)
Definition writes_by_presence (repo : string) (params : GitRepo.CreateOrUpdateFileParams)
    (log : list call) : Prop :=
  let path := GitRepo.cf_path params in
  let message := GitRepo.cf_message params in
  let content := GitRepo.cf_content params in
  let branch := GitRepo.cf_branch params in
  match GitRepo.cf_sha params with
  | None => Repo_create_file repo path message content branch ∈ log
  | Some sha => Repo_update_file repo path message content sha branch ∈ log
  end.

(** ** Postconditions of runs *)

(** [post m s Q]: the run of [m] from [s] ends in a result and a state
    that satisfy [Q]. *)
Definition post {S A} (m : M S A) (s : S) (Q : res A → S → Prop) : Prop :=
  Q (m s).1 (m s).2.

(** A step of the local machine that leaves every history and the pushes as
    they are. *)
Definition kept (w w' : world) : Prop :=
  (∀ p, commits_at p w' = commits_at p w) ∧ pushes w' = pushes w.

(** What a run of push_to_github may have done to the working copy at
    [path] and to the pushes: the history is as before, or was empty and
    holds one commit with message [msg]; the pushes are as before, or one
    push with [refspec] has been added. *)
Definition pushed_once (path msg refspec : string) (w w' : world) : Prop :=
  (commits_at path w' = commits_at path w
   ∨ (commits_at path w = [] ∧ ∃ tr, commits_at path w' = [mkCommit msg tr]))
  ∧ (pushes w' = pushes w
     ∨ ∃ url cs, pushes w' = pushes w ++ [mkPush url refspec cs]).

(** ** A stub local machine

    One directory with a file in it and no repository yet; an environment
    in which no git command fails. *)

Definition fresh : world :=
  mkWorld {[ "/srv/widgets" := mkWorkdir ["README.md"] None ]} [] 0.

Definition no_fault : nat → option exn := fun _ => None.

Definition widgets_url : string := "https://github.com/acme/widgets.git".

(** An environment in which the git command number [n] fails with [e] and
    no other command fails. *)
Definition fails_at (n : nat) (e : exn) : nat → option exn :=
  fun k => if Nat.eqb k n then Some e else None.


(** ** Describing the local machine *)

(** The local machine holds the directory [d] at [path], the pushes [ps],
    and has run [c] git commands. *)
Definition at_state (path : string) (d : workdir) (ps : list push_record) (c : nat)
    (w : world) : Prop :=
  fs w !! path = Some d ∧ pushes w = ps ∧ clock w = c.

(** The working files of [path] are in [w'] what they are in [w]. *)
Definition same_files (path : string) (w w' : world) : Prop :=
  files <$> fs w' !! path = files <$> fs w !! path.

(** ** Slicing *)

Lemma slice_iter_S {A} (els : list A) (loaded : option nat) (index : Z) (steps : nat) :
  slice_iter els loaded index (S steps)
  = if is_bigger_than (length els) loaded index then
      match py_getitem (take (len_elements (fetch_to_index (length els) loaded index)) els)
              index with
      | Some x =>
          rest ← slice_iter els (fetch_to_index (length els) loaded index) (index + 1) steps;
          Ret (x :: rest)
      | None => Raise (IndexError "list index out of range")
      end
    else Ret [].
Proof. reflexivity. Qed.

Lemma page_end_above (n : nat) :
  (n < (n / client_per_page + 1) * client_per_page)%nat.
Proof.
  unfold client_per_page.
  pose proof (Nat.div_mod_eq n 30). pose proof (Nat.mod_upper_bound n 30). lia.
Qed.

(** Fetching up to an index the upstream has an item at reaches it. *)
Lemma fetch_to_index_inside (total : nat) (loaded : option nat) (index : Z) :
  0 ≤ index < Z.of_nat total → (len_elements loaded ≤ total)%nat →
  is_bigger_than total loaded index = true
  ∧ ∃ n, fetch_to_index total loaded index = Some n ∧ (Z.to_nat index < n ≤ total)%nat.
Proof.
  intros Hidx Hlen. unfold is_bigger_than, fetch_to_index.
  pose proof (page_end_above (Z.to_nat index)) as Hpage.
  destruct loaded as [n|]; unfold len_elements, could_grow in *;
    cbn [default from_option id] in *.
  - destruct (Z.leb_spec (Z.of_nat n) index) as [Hle|Hlt].
    + assert ((n <? total)%nat = true) as -> by (apply Nat.ltb_lt; lia).
      rewrite orb_true_r. cbn [andb]. split; [done|]. eexists; split; [done|]. lia.
    + cbn [andb]. split; [|exists n; split; [done | lia]].
      apply orb_true_iff. left. by apply Z.ltb_lt.
  - destruct (Z.leb_spec (Z.of_nat 0) index) as [Hle|Hlt]; [|lia].
    rewrite orb_true_r. cbn [andb]. split; [done|]. eexists; split; [done|]. lia.
Qed.

(** A slice at an index the upstream has an item at, or on a list that has
    fetched its last page: the items from [index] on, [steps] of them at
    most. *)
Lemma slice_iter_take {A} (els : list A) (steps : nat) (index : Z) (loaded : option nat) :
  0 ≤ index →
  (len_elements loaded ≤ length els)%nat →
  (Z.of_nat (length els) ≤ index → could_grow (length els) loaded = false) →
  slice_iter els loaded index steps = Ret (take steps (drop (Z.to_nat index) els)).
Proof.
  revert index loaded. induction steps as [|n IH]; intros index loaded Hidx Hlen Hend.
  - by rewrite take_0.
  - rewrite slice_iter_S.
    destruct (Z.le_gt_cases (Z.of_nat (length els)) index) as [Hout|Hin].
    + unfold is_bigger_than. rewrite (Hend Hout), orb_false_r.
      destruct (Z.ltb_spec index (Z.of_nat (len_elements loaded))); [lia|].
      by rewrite drop_ge by lia.
    + destruct (fetch_to_index_inside (length els) loaded index) as (-> & m & -> & Hm);
        [lia | done |].
      simpl. unfold py_getitem.
      destruct (Z.ltb_spec index 0); [lia|].
      rewrite lookup_take_lt by lia.
      destruct (els !! Z.to_nat index) as [x|] eqn:Hx;
        [|apply lookup_ge_None in Hx; lia].
      rewrite IH; [| lia | simpl; lia |].
      * replace (Z.to_nat (index + 1)) with (S (Z.to_nat index)) by lia.
        simpl. by rewrite (drop_S _ _ _ Hx).
      * intros Hnext. simpl. apply Nat.ltb_ge. lia.
Qed.

Lemma slice_iter_done {A} (els : list A) (loaded : option nat) (index : Z) :
  slice_iter els loaded index 0 = Ret [].
Proof. reflexivity. Qed.

(** A fresh list is looked up at a negative index among the items fetched
    so far, and there are none. *)
Lemma slice_iter_negative {A} (els : list A) (index : Z) (steps : nat) :
  index < 0 →
  slice_iter els None index (S steps) = Raise (IndexError "list index out of range").
Proof.
  intros Hneg. rewrite slice_iter_S.
  unfold is_bigger_than, fetch_to_index, py_getitem, len_elements, could_grow.
  cbn [default from_option id]. rewrite orb_true_r.
  destruct (Z.leb_spec (Z.of_nat 0) index) as [Hle|Hlt]; [lia|].
  cbn [andb default from_option id]. rewrite take_0.
  destruct (Z.ltb_spec index 0) as [_|?]; [|lia].
  by destruct (Z.leb_spec (- index) (Z.of_nat (@length A []))) as [Hle|_];
    [simpl in Hle; lia|].
Qed.

(** A fresh list is looked up at the first index of the slice whatever the
    upstream holds: after the last item the lookup fails. *)
Lemma slice_iter_beyond {A} (els : list A) (index : Z) (steps : nat) :
  Z.of_nat (length els) ≤ index →
  slice_iter els None index (S steps) = Raise (IndexError "list index out of range").
Proof.
  intros Hout. rewrite slice_iter_S.
  unfold is_bigger_than, fetch_to_index, py_getitem, len_elements, could_grow.
  cbn [default from_option id]. rewrite orb_true_r.
  destruct (Z.leb_spec (Z.of_nat 0) index) as [Hle|Hlt]; [|lia].
  cbn [andb default from_option id].
  destruct (Z.ltb_spec index 0) as [?|_]; [lia|].
  rewrite (proj2 (lookup_ge_None _ _)); [done|].
  rewrite length_take. lia.
Qed.

Lemma take_drop_is_page {A} (upstream : list A) (page per_page : Z) :
  1 ≤ page → 1 ≤ per_page →
  is_page upstream
    (take (Z.to_nat per_page) (drop (Z.to_nat ((page - 1) * per_page)) upstream))
    page per_page.
Proof.
  intros Hpage Hper. split.
  - rewrite length_take. lia.
  - intros i. case_bool_decide as Hi.
    + rewrite lookup_take_lt by lia. by rewrite lookup_drop.
    + apply lookup_ge_None. rewrite length_take. lia.
Qed.

Lemma is_page_fmap {A B} (f : A → B) (upstream out : list A) (page per_page : Z) :
  is_page upstream out page per_page →
  is_page (f <$> upstream) (f <$> out) page per_page.
Proof.
  intros [Hlen Hat]. split.
  - by rewrite length_fmap.
  - intros i. rewrite !list_lookup_fmap, Hat. by case_bool_decide.
Qed.

(** The slice the handlers take, for a valid page and page size, when the
    page starts at an item the upstream has. *)
Lemma getslice_page {A} (pl : PaginatedList A) (page per_page : Z) :
  1 ≤ page → 1 ≤ per_page →
  (page - 1) * per_page < Z.of_nat (length (elements pl)) →
  ∃ out,
    is_page (elements pl) out page per_page ∧
    getslice pl ((page - 1) * per_page) ((page - 1) * per_page + per_page) = Ret out.
Proof.
  intros Hpage Hper Hin.
  exists (take (Z.to_nat per_page) (drop (Z.to_nat ((page - 1) * per_page)) (elements pl))).
  split; [by apply take_drop_is_page|].
  unfold getslice. rewrite slice_iter_take; [| nia | simpl; lia | lia].
  by replace ((page - 1) * per_page + per_page - (page - 1) * per_page) with per_page by lia.
Qed.

(** A valid page that starts after the last item: the IndexError of the
    library; the first page of an empty list is such a page. *)
Lemma getslice_beyond {A} (pl : PaginatedList A) (page per_page : Z) :
  1 ≤ per_page →
  Z.of_nat (length (elements pl)) ≤ (page - 1) * per_page →
  getslice pl ((page - 1) * per_page) ((page - 1) * per_page + per_page)
  = Raise (IndexError "list index out of range").
Proof.
  intros Hper Hout. unfold getslice.
  replace ((page - 1) * per_page + per_page - (page - 1) * per_page) with per_page by lia.
  destruct (Z.to_nat per_page) as [|n] eqn:Hn; [lia|].
  by apply slice_iter_beyond.
Qed.

(** The first items of a list that has some. *)
Lemma getslice_first {A} (pl : PaginatedList A) (stop : Z) :
  elements pl ≠ [] →
  getslice pl 0 stop = Ret (take (Z.to_nat stop) (elements pl)).
Proof.
  intros Hne. unfold getslice.
  assert (0 < length (elements pl))%nat
    by (destruct (elements pl); [done | simpl; lia]).
  rewrite slice_iter_take; [| lia | simpl; lia | lia].
  by rewrite Z.sub_0_r.
Qed.

(** Without a stop: the whole list when it has items, the IndexError of the
    first lookup when it has none. *)
Lemma getslice_from_start {A} (pl : PaginatedList A) :
  getslice_from pl 0
  = if bool_decide (elements pl = []) then Raise (IndexError "list index out of range")
    else Ret (elements pl).
Proof.
  destruct (decide (elements pl = [])) as [Hempty|Hne].
  - rewrite bool_decide_eq_true_2 by done. unfold getslice_from.
    apply slice_iter_beyond. rewrite Hempty. simpl. lia.
  - rewrite bool_decide_eq_false_2 by done. unfold getslice_from.
    assert (0 < length (elements pl))%nat
      by (destruct (elements pl); [done | simpl; lia]).
    rewrite slice_iter_take; [| lia | simpl; lia | lia].
    change (Z.to_nat 0) with 0%nat. rewrite drop_0. by rewrite take_ge by lia.
Qed.

(** A page size below 1 leaves the slice nothing to iterate: the page is
    empty, whatever the page number. *)
Lemma getslice_empty_page {A} (pl : PaginatedList A) (start per_page : Z) :
  per_page < 1 → getslice pl start (start + per_page) = Ret [].
Proof.
  intros Hper. unfold getslice.
  by replace (Z.to_nat (start + per_page - start)) with 0%nat by lia.
Qed.

(** A page below 1 with a page size of at least 1 starts the slice at a
    negative index: the IndexError of the library. *)
Lemma getslice_below_first_page {A} (pl : PaginatedList A) (page per_page : Z) :
  page < 1 → 1 ≤ per_page →
  getslice pl ((page - 1) * per_page) ((page - 1) * per_page + per_page)
  = Raise (IndexError "list index out of range").
Proof.
  intros Hpage Hper. unfold getslice.
  replace ((page - 1) * per_page + per_page - (page - 1) * per_page) with per_page by lia.
  destruct (Z.to_nat per_page) as [|n] eqn:Hn; [lia|].
  apply slice_iter_negative. nia.
Qed.

Ltac run_handler :=
  unfold try_except, mbind, M_bind, bind, invoke, mret, M_ret, ret; simpl.

(** ** The handlers that slice: the page of the spec *)

Section Pages.

Variable gh : Github.
Variables (page per_page : Z).
Hypothesis page_valid : 1 ≤ page.
Hypothesis per_page_valid : 1 ≤ per_page ≤ 100.

(** X1.  list_commits on a valid window that starts at a commit the upstream
    has answers the page of the upstream commits. *)
Lemma list_commits_page (owner repo_name : string) (sha : option string)
    (history : list call) (repo : Repository) (commits : PaginatedList GithubObject) :
  answer_repo gh history (Get_repo (owner +:+ "/" +:+ repo_name)) = Ret repo →
  answer_objects gh (history ++ [Get_repo (owner +:+ "/" +:+ repo_name)])
    (Repo_get_commits (repo_full_name repo) sha) = Ret commits →
  (page - 1) * per_page < Z.of_nat (length (elements commits)) →
  ∃ payload,
    is_page (raw_data <$> elements commits) payload page per_page ∧
    (GitRepo.list_commits gh
       (GitRepo.mkListCommitsParams owner repo_name sha (Some per_page) (Some page))
       history).1
    = Ret (Content (Dumps (JList payload))).
Proof.
  intros Hrepo Hcommits Hinside.
  destruct (getslice_page commits page per_page) as (out & Hout & Hrun); [done | lia | done |].
  exists (raw_data <$> out). split; [by apply is_page_fmap|].
  unfold GitRepo.list_commits. run_handler.
  rewrite Hrepo. simpl. rewrite Hcommits. simpl.
  rewrite Hrun. reflexivity.
Qed.

(** X2.  list_branches on a valid window that starts at a branch the
    upstream has answers the page of the upstream branches. *)
Lemma list_branches_page (owner repo_name : string)
    (history : list call) (repo : Repository) (branches : PaginatedList GithubObject) :
  answer_repo gh history (Get_repo (owner +:+ "/" +:+ repo_name)) = Ret repo →
  answer_objects gh (history ++ [Get_repo (owner +:+ "/" +:+ repo_name)])
    (Repo_get_branches (repo_full_name repo)) = Ret branches →
  (page - 1) * per_page < Z.of_nat (length (elements branches)) →
  ∃ payload,
    is_page (raw_data <$> elements branches) payload page per_page ∧
    (GitRepo.list_branches gh
       (GitRepo.mkListBranchesParams owner repo_name (Some per_page) (Some page))
       history).1
    = Ret (Content (Dumps (JList payload))).
Proof.
  intros Hrepo Hbranches Hinside.
  destruct (getslice_page branches page per_page) as (out & Hout & Hrun); [done | lia | done |].
  exists (raw_data <$> out). split; [by apply is_page_fmap|].
  unfold GitRepo.list_branches. run_handler.
  rewrite Hrepo. simpl. rewrite Hbranches. simpl.
  rewrite Hrun. reflexivity.
Qed.

(** X3.  search_repositories on a valid window that starts at a repository
    found answers the total and the page of the repositories found. *)
Lemma search_repositories_page (q : string) (history : list call)
    (result : PaginatedList RepoItem) :
  answer_repos gh history (Search_repositories q) = Ret result →
  (page - 1) * per_page < Z.of_nat (length (elements result)) →
  ∃ payload,
    is_page (SearchRepo.repo_dict <$> elements result) payload page per_page ∧
    (SearchRepo.search_repositories gh
       (SearchRepo.mkSearchReposParams q (Some per_page) (Some page)) history).1
    = Ret (Search (totalCount result) "repositories" payload).
Proof.
  intros Hresult Hinside.
  destruct (getslice_page result page per_page) as (out & Hout & Hrun); [done | lia | done |].
  exists (SearchRepo.repo_dict <$> out). split; [by apply is_page_fmap|].
  unfold SearchRepo.search_repositories. run_handler.
  rewrite Hresult. simpl.
  rewrite Hrun. reflexivity.
Qed.

(** X4.  search_code on a valid window that starts at a hit answers the total
    and the page of the hits. *)
Lemma search_code_page (q : string) (sort order : option string) (history : list call)
    (result : PaginatedList CodeItem) :
  answer_codes gh history (Search_code q) = Ret result →
  (page - 1) * per_page < Z.of_nat (length (elements result)) →
  ∃ payload,
    is_page (SearchRepo.code_dict <$> elements result) payload page per_page ∧
    (SearchRepo.search_code gh
       (SearchRepo.mkSearchCodeParams q sort order (Some per_page) (Some page)) history).1
    = Ret (Search (totalCount result) "code_results" payload).
Proof.
  intros Hresult Hinside.
  destruct (getslice_page result page per_page) as (out & Hout & Hrun); [done | lia | done |].
  exists (SearchRepo.code_dict <$> out). split; [by apply is_page_fmap|].
  unfold SearchRepo.search_code. run_handler.
  rewrite Hresult. simpl.
  rewrite Hrun. reflexivity.
Qed.

(** X5.  search_users on a valid window that starts at a user found answers
    the total and the page of the users found. *)
Lemma search_users_page (q : string) (sort order : option string) (history : list call)
    (result : PaginatedList UserItem) :
  answer_users gh history (Search_users q) = Ret result →
  (page - 1) * per_page < Z.of_nat (length (elements result)) →
  ∃ payload,
    is_page (SearchRepo.user_dict <$> elements result) payload page per_page ∧
    (SearchRepo.search_users gh
       (SearchRepo.mkSearchUsersParams q sort order (Some per_page) (Some page)) history).1
    = Ret (Search (totalCount result) "users" payload).
Proof.
  intros Hresult Hinside.
  destruct (getslice_page result page per_page) as (out & Hout & Hrun); [done | lia | done |].
  exists (SearchRepo.user_dict <$> out). split; [by apply is_page_fmap|].
  unfold SearchRepo.search_users. run_handler.
  rewrite Hresult. simpl.
  rewrite Hrun. reflexivity.
Qed.

End Pages.

(** ** The calls a run makes *)

Lemma made_app {A} (m : M (list call) A) (history new : list call) :
  (m history).2 = history ++ new → made m history = new.
Proof. unfold made. intros ->. by rewrite drop_app_length. Qed.

(** ** C1: the list operations that do not take the page *)

(** get_issue_comments never reads page, search_issues never reads
    per_page, list_pull_requests and get_pull_request_files read neither. *)
Lemma get_issue_comments_ignores_page (g : Github) (owner repo_name : string) (number : Z)
    (page page' per_page : option Z) (history : list call) :
  GitIssues.get_issue_comments g
    (GitIssues.mkCommentsListParams owner repo_name number page per_page) history
  = GitIssues.get_issue_comments g
      (GitIssues.mkCommentsListParams owner repo_name number page' per_page) history.
Proof. reflexivity. Qed.

Lemma search_issues_ignores_per_page (g : Github) (q : string) (sort order : option string)
    (per_page per_page' page : option Z) (history : list call) :
  GitIssues.search_issues g (GitIssues.mkSearchParams q sort order per_page page) history
  = GitIssues.search_issues g (GitIssues.mkSearchParams q sort order per_page' page) history.
Proof. reflexivity. Qed.

Lemma list_pull_requests_ignores_window (g : Github) (owner repo_name : string)
    (state : option PullRequests.PullRequestState) (head base : option string)
    (sort : option PullRequests.PullRequestSort) (direction : option PullRequests.Direction)
    (per_page per_page' page page' : option Z) (history : list call) :
  PullRequests.list_pull_requests g
    (PullRequests.mkListPullRequestsInput owner repo_name state head base sort direction
       per_page page) history
  = PullRequests.list_pull_requests g
      (PullRequests.mkListPullRequestsInput owner repo_name state head base sort direction
         per_page' page') history.
Proof. reflexivity. Qed.

Lemma get_pull_request_files_ignores_window (g : Github) (owner repo_name : string)
    (number : Z) (per_page per_page' page page' : option Z) (history : list call) :
  PullRequests.get_pull_request_files g
    (PullRequests.mkGetPullRequestFilesInput owner repo_name number per_page page) history
  = PullRequests.get_pull_request_files g
      (PullRequests.mkGetPullRequestFilesInput owner repo_name number per_page' page')
      history.
Proof. reflexivity. Qed.

(** C1 (code defect).  The claim asks every list operation to return the
    page [(page, per_page)] of the upstream items.  list_commits,
    list_branches and the three searches do for every page that starts at an
    item the upstream has (lemmas [list_commits_page] to
    [search_users_page]); the four operations below do not, each being
    blind to one or both fields (lemmas [get_issue_comments_ignores_page] to
    [get_pull_request_files_ignores_window]).  On an upstream
    with three items: get_issue_comments asked for page 2 of size 1 answers
    the first item; search_issues, list_pull_requests and
    get_pull_request_files asked for page 1 of size 1 answer all three. *)
Theorem list_operations_off_the_page :
  let upstream := raw_data <$> elements three in
  ((GitIssues.get_issue_comments stub
      (GitIssues.mkCommentsListParams "acme" "widgets" 7 (Some 2) (Some 1)) []).1
   = Ret (Items [JInt 1])
   ∧ ¬ is_page upstream [JInt 1] 2 1)
  ∧ ((GitIssues.search_issues stub
        (GitIssues.mkSearchParams "is:open" (Some "created") (Some "desc") (Some 1) (Some 1))
        []).1
     = Ret (Items [JInt 1; JInt 2; JInt 3])
     ∧ ¬ is_page upstream [JInt 1; JInt 2; JInt 3] 1 1)
  ∧ ((PullRequests.list_pull_requests stub
        (PullRequests.mkListPullRequestsInput "acme" "widgets" None None None None None
           (Some 1) (Some 1)) []).1
     = Ret (Content (Dumps (JList [JInt 1; JInt 2; JInt 3]))))
  ∧ ((PullRequests.get_pull_request_files stub
        (PullRequests.mkGetPullRequestFilesInput "acme" "widgets" 7 (Some 1) (Some 1)) []).1
     = Ret (Content (Dumps (JList [JInt 1; JInt 2; JInt 3])))).
Proof.
  simpl. repeat split; try reflexivity.
  - intros [_ Hat]. specialize (Hat 0%nat). discriminate Hat.
  - intros [Hlen _]. simpl in Hlen. lia.
Qed.

(** ** C2: which failures leave a handler as exceptions *)

(** A handler whose body sits in [try ... except Exception] with a handler
    that returns never raises. *)
Lemma except_Exception_returns {S A} (body : M S A) (render : exn → A) (s : S) :
  ∃ a, (try_except body is_Exception (fun e => mret (render e)) s).1 = Ret a.
Proof.
  unfold try_except. destruct (body s) as [[a|e] s']; simpl; eauto.
Qed.

Lemma get_commit_returns (gh : Github) (params : GitRepo.GetCommitParams)
    (history : list call) :
  ∃ result, (GitRepo.get_commit gh params history).1 = Ret result.
Proof. apply except_Exception_returns. Qed.

Lemma list_commits_returns (gh : Github) (params : GitRepo.ListCommitsParams)
    (history : list call) :
  ∃ result, (GitRepo.list_commits gh params history).1 = Ret result.
Proof. apply except_Exception_returns. Qed.

Lemma list_branches_returns (gh : Github) (params : GitRepo.ListBranchesParams)
    (history : list call) :
  ∃ result, (GitRepo.list_branches gh params history).1 = Ret result.
Proof. apply except_Exception_returns. Qed.

Lemma create_or_update_file_returns (gh : Github)
    (params : GitRepo.CreateOrUpdateFileParams) (history : list call) :
  ∃ result, (GitRepo.create_or_update_file gh params history).1 = Ret result.
Proof. apply except_Exception_returns. Qed.

Lemma push_to_github_returns (fault : nat → option exn)
    (params : GitRepo.GitPushLocalTOGIT) (w : world) :
  ∃ result, (GitRepo.push_to_github fault params w).1 = Ret result.
Proof. apply except_Exception_returns. Qed.

(** X20.  get_issue has no handler: a failure of the repository lookup or of the
    issue lookup leaves it as it was raised. *)
Lemma get_issue_propagates (g : Github) (params : GitIssues.IssueParams)
    (history : list call) (e : exn) :
  let lookup := Get_repo (GitIssues.ip_owner params +:+ "/" +:+ GitIssues.ip_repo params) in
  (answer_repo g history lookup = Raise e →
   GitIssues.get_issue g params history = (Raise e, history ++ [lookup]))
  ∧ (∀ repo,
       let issue := Repo_get_issue (repo_full_name repo) (GitIssues.ip_issue_number params) in
       answer_repo g history lookup = Ret repo →
       answer_object g (history ++ [lookup]) issue = Raise e →
       GitIssues.get_issue g params history = (Raise e, (history ++ [lookup]) ++ [issue])).
Proof.
  intros lookup. split.
  - intros Hfail. unfold GitIssues.get_issue. run_handler. subst lookup. by rewrite Hfail.
  - intros repo issue Hrepo Hfail. unfold GitIssues.get_issue. run_handler.
    subst lookup issue. rewrite Hrepo. simpl. by rewrite Hfail.
Qed.

(** X13.  The pull-request handlers catch GithubException only: any other
    exception of the pull lookup leaves the handler. *)
Lemma get_pull_request_lets_others_through (g : Github)
    (data : PullRequests.GetPullRequestInput) (history : list call)
    (user : NamedUser) (repo : Repository) (e : exn) :
  let c1 := Get_user (Some (PullRequests.gp_owner data)) in
  let c2 := User_get_repo (user_login user) (PullRequests.gp_repo data) in
  let c3 := Repo_get_pull (repo_full_name repo) (PullRequests.gp_pull_number data) in
  answer_user g history c1 = Ret user →
  answer_repo g (history ++ [c1]) c2 = Ret repo →
  answer_object g ((history ++ [c1]) ++ [c2]) c3 = Raise e →
  (PullRequests.get_pull_request g data history).1 =
    if is_GithubException e then Ret (PullRequests.error_content e) else Raise e.
Proof.
  intros c1 c2 c3 Huser Hrepo Hpull.
  unfold PullRequests.get_pull_request, PullRequests.get_repo. run_handler.
  subst c1 c2 c3. rewrite Huser. simpl. rewrite Hrepo. simpl. rewrite Hpull.
  by destruct e.
Qed.

(** C2 (code defect).  The claim asks every failure of every operation to
    come back as a rendered error.  The handlers of git_repo.py do that
    (lemmas [get_commit_returns] to [push_to_github_returns]); get_issue has
    no handler at all (lemma [get_issue_propagates]) and the not-found
    failure of the repository lookup leaves it as an exception;
    get_pull_request lets a connection error of
    the pull lookup through; search_repositories lets the TypeError of a
    null page through. *)
Theorem failures_that_escape :
  GitIssues.get_issue (flaky unknown_object)
    (GitIssues.mkIssueParams "acme" "widgets" 42) []
  = (Raise unknown_object, [Get_repo "acme/widgets"])
  ∧ (PullRequests.get_pull_request
       (mkGithub (answer_repo stub) (answer_user stub)
          (fun _ _ => Raise (ConnectionError "Connection reset by peer"))
          (answer_objects stub) (answer_write stub) (answer_repos stub)
          (answer_codes stub) (answer_users stub))
       (PullRequests.mkGetPullRequestInput "acme" "widgets" 7) []).1
    = Raise (ConnectionError "Connection reset by peer")
  ∧ (SearchRepo.search_repositories stub
       (SearchRepo.mkSearchReposParams "mcp" (Some 30) None) []).1
    = Raise (TypeError "unsupported operand type(s) for -: 'NoneType' and 'int'").
Proof. repeat split; reflexivity. Qed.

(** ** C3: no retry *)




(** ** C4: no validation before the upstream *)

Ltac first_call :=
  run_handler;
  repeat (match goal with
          | |- context [match ?x with _ => _ end] =>
              lazymatch x with
              | context [match _ with _ => _ end] => fail
              | _ => destruct x; simpl
              end
          end);
  rewrite <- ?app_assoc; simpl; eauto.

(** C4 (as amended).  No handler checks page or per_page before it reaches
    the upstream: whatever the page and the page size (below 1 included),
    the first thing each paginated handler does is its repository lookup,
    its user lookup or its search call, and the log of the run starts with
    it. *)
Theorem paginated_handlers_call_upstream_first (gh : Github) (history : list call) :
  (∀ params, ∃ rest,
     (GitRepo.list_commits gh params history).2
     = history ++ Get_repo (GitRepo.lc_owner params +:+ "/" +:+ GitRepo.lc_repo params)
                    :: rest)
  ∧ (∀ params, ∃ rest,
       (GitRepo.list_branches gh params history).2
       = history ++ Get_repo (GitRepo.lb_owner params +:+ "/" +:+ GitRepo.lb_repo params)
                      :: rest)
  ∧ (∀ params, ∃ rest,
       (SearchRepo.search_repositories gh params history).2
       = history ++ Search_repositories (SearchRepo.sr_q params) :: rest)
  ∧ (∀ params, ∃ rest,
       (SearchRepo.search_code gh params history).2
       = history ++ Search_code (SearchRepo.sc_q params) :: rest)
  ∧ (∀ params, ∃ rest,
       (SearchRepo.search_users gh params history).2
       = history ++ Search_users (SearchRepo.su_q params) :: rest)
  ∧ (∀ params, ∃ rest,
       (GitIssues.search_issues gh params history).2
       = history ++ Search_issues (GitIssues.sp_q params) (GitIssues.sp_sort params)
                      (GitIssues.sp_order params) :: rest)
  ∧ (∀ params, ∃ rest,
       (GitIssues.get_issue_comments gh params history).2
       = history ++ Get_repo (GitIssues.cl_owner params +:+ "/" +:+ GitIssues.cl_repo params)
                      :: rest)
  ∧ (∀ data, ∃ rest,
       (PullRequests.list_pull_requests gh data history).2
       = history ++ Get_user (Some (PullRequests.lp_owner data)) :: rest)
  ∧ (∀ data, ∃ rest,
       (PullRequests.get_pull_request_files gh data history).2
       = history ++ Get_user (Some (PullRequests.gf_owner data)) :: rest).
Proof.
  repeat split; intros params.
  - unfold GitRepo.list_commits. first_call.
  - unfold GitRepo.list_branches. first_call.
  - unfold SearchRepo.search_repositories. first_call.
  - unfold SearchRepo.search_code. first_call.
  - unfold SearchRepo.search_users. first_call.
  - unfold GitIssues.search_issues. first_call.
  - unfold GitIssues.get_issue_comments. first_call.
  - unfold PullRequests.list_pull_requests, PullRequests.get_repo. first_call.
  - unfold PullRequests.get_pull_request_files, PullRequests.get_repo. first_call.
Qed.

(** What follows the calls on a window the spec calls invalid: under a
    page size below 1 the slice is empty and the handler answers an empty
    page; under a page below 1 (and a page size of at least 1) the slice
    raises the IndexError, which list_commits renders and
    search_repositories lets through. *)
Section InvalidWindows.

Variable gh : Github.
Variables (page per_page : Z).

(** X7.  list_commits on a window below 1: an empty page under a page size below
    1, the rendered IndexError under a page below 1. *)
Lemma list_commits_invalid_window (owner repo_name : string) (sha : option string)
    (history : list call) (repo : Repository) (commits : PaginatedList GithubObject) :
  let lookup := Get_repo (owner +:+ "/" +:+ repo_name) in
  let listing := Repo_get_commits (repo_full_name repo) sha in
  let run :=
    GitRepo.list_commits gh
      (GitRepo.mkListCommitsParams owner repo_name sha (Some per_page) (Some page)) history in
  answer_repo gh history lookup = Ret repo →
  answer_objects gh (history ++ [lookup]) listing = Ret commits →
  run.2 = (history ++ [lookup]) ++ [listing]
  ∧ (per_page < 1 → run.1 = Ret (Content (Dumps (JList []))))
  ∧ (page < 1 → 1 ≤ per_page →
     run.1 = Ret (Content (Str "Error: list index out of range"))).
Proof.
  intros lookup listing run Hrepo Hcommits. subst run lookup listing.
  unfold GitRepo.list_commits. run_handler.
  rewrite Hrepo. simpl. rewrite Hcommits. simpl.
  split; [|split].
  - by destruct (getslice commits _ _).
  - intros Hper. by rewrite getslice_empty_page.
  - intros Hpage Hper. by rewrite getslice_below_first_page.
Qed.

(** X8.  search_repositories on a window below 1: an empty page under a page
    size below 1, the IndexError let through under a page below 1. *)
Lemma search_repositories_invalid_window (q : string) (history : list call)
    (result : PaginatedList RepoItem) :
  let run :=
    SearchRepo.search_repositories gh
      (SearchRepo.mkSearchReposParams q (Some per_page) (Some page)) history in
  answer_repos gh history (Search_repositories q) = Ret result →
  run.2 = history ++ [Search_repositories q]
  ∧ (per_page < 1 → run.1 = Ret (Search (totalCount result) "repositories" []))
  ∧ (page < 1 → 1 ≤ per_page → run.1 = Raise (IndexError "list index out of range")).
Proof.
  intros run Hresult. subst run.
  unfold SearchRepo.search_repositories. run_handler.
  rewrite Hresult. simpl.
  split; [|split].
  - destruct (getslice result _ _) as [items|e]; simpl; [done|].
    by destruct (is_GithubException e).
  - intros Hper. by rewrite getslice_empty_page.
  - intros Hpage Hper. by rewrite getslice_below_first_page.
Qed.

End InvalidWindows.

(** C4 (as stated, refuted).  list_commits asked for page 0 has called the
    upstream twice by the time the slice fails, and what it returns is the
    rendered IndexError; search_repositories asked for a page size of 0 has
    called the upstream and returns an empty page, no error at all. *)
Lemma page_zero_reaches_upstream :
  ¬ no_upstream_call
      (GitRepo.list_commits stub
         (GitRepo.mkListCommitsParams "acme" "widgets" (Some "main") (Some 30) (Some 0))) []
  ∧ GitRepo.list_commits stub
      (GitRepo.mkListCommitsParams "acme" "widgets" (Some "main") (Some 30) (Some 0)) []
    = (Ret (Content (Str "Error: list index out of range")),
       [Get_repo "acme/widgets"; Repo_get_commits "acme/widgets" (Some "main")])
  ∧ SearchRepo.search_repositories stub
      (SearchRepo.mkSearchReposParams "mcp" (Some 0) (Some 1)) []
    = (Ret (Search 0 "repositories" []), [Search_repositories "mcp"]).
Proof.
  repeat split; try reflexivity.
  unfold no_upstream_call. vm_compute. discriminate.
Qed.

(** ** C5: list_issues without since *)

(** C5 (code defect).  The claim asks list_issues to complete when since is
    omitted.  It never does: whatever the upstream answers and whatever the
    other fields, the handler builds its filter from
    [datetime.fromisoformat(params.since)] before any None is dropped, so
    with since absent the run ends in an exception (the TypeError of the
    conversion, unless the repository lookup has failed before) and the
    upstream is never asked for the issues. *)
Theorem list_issues_without_since (g : Github) (iso_error : string → option string)
    (params : GitIssues.ListIssuesParams) (history : list call) :
  GitIssues.li_since params = None →
  let run := GitIssues.list_issues g iso_error params history in
  let lookup := Get_repo (GitIssues.li_owner params +:+ "/" +:+ GitIssues.li_repo params) in
  (∃ e, run.1 = Raise e)
  ∧ run.2 = history ++ [lookup]
  ∧ (∀ repo, answer_repo g history lookup = Ret repo →
       run.1 = Raise (TypeError "fromisoformat: argument must be str")).
Proof.
  intros Hsince run lookup. subst run lookup.
  unfold GitIssues.list_issues. run_handler.
  destruct (answer_repo g history _) as [repo|e]; simpl.
  - rewrite Hsince. simpl. repeat split; eauto.
  - repeat split; eauto. intros repo. discriminate.
Qed.

Lemma list_issues_without_since_witness :
  let run :=
    GitIssues.list_issues stub (fun _ => None)
      (GitIssues.mkListIssuesParams "acme" "widgets" (Some "open") None None None None
         (Some 30) (Some 1)) [] in
  run.1 = Raise (TypeError "fromisoformat: argument must be str")
  ∧ run.2 = [Get_repo "acme/widgets"].
Proof.
  intros run.
  destruct (list_issues_without_since stub (fun _ => None)
              (GitIssues.mkListIssuesParams "acme" "widgets" (Some "open") None None None
                 None (Some 30) (Some 1)) [] eq_refl) as (_ & Hlog & Hraise).
  split; [exact (Hraise widgets eq_refl) | exact Hlog].
Defined.

(** With since given in a format the conversion accepts, the issues are
    asked for, with the None filters dropped and since forwarded. *)
Example list_issues_with_since :
  made (GitIssues.list_issues stub (fun _ => None)
          (GitIssues.mkListIssuesParams "acme" "widgets" (Some "open") None None None
             (Some "2024-01-01T00:00:00") (Some 30) (Some 1))) []
  = [Get_repo "acme/widgets";
     Repo_get_issues "acme/widgets"
       [("state", KStr "open"); ("since", KDatetime "2024-01-01T00:00:00")]].
Proof. reflexivity. Qed.

(** ** C6: create or update *)

(** C6 (as amended).  On a repository that resolves, create_or_update_file
    makes one write call after the lookup: a creation when sha is absent or
    the empty string, an update carrying the sha when sha is a non-empty
    string.  Hence a creation without sha followed by a call with the
    non-empty sha it returned is a creation followed by an update. *)
Theorem create_or_update_by_sha (gh : Github) (owner repo_name path content message
    branch : string) (history : list call) (repo : Repository) :
  let lookup := Get_repo (owner +:+ "/" +:+ repo_name) in
  let create := Repo_create_file (repo_full_name repo) path message content branch in
  let update sha := Repo_update_file (repo_full_name repo) path message content sha branch in
  let request sha :=
    GitRepo.mkCreateOrUpdateFileParams owner repo_name path content message branch sha in
  (answer_repo gh history lookup = Ret repo →
   made (GitRepo.create_or_update_file gh (request None)) history = [lookup; create]
   ∧ made (GitRepo.create_or_update_file gh (request (Some ""))) history = [lookup; create]
   ∧ ∀ sha, sha ≠ "" →
       made (GitRepo.create_or_update_file gh (request (Some sha))) history
       = [lookup; update sha])
  ∧ (∀ sha, sha ≠ "" →
     answer_repo gh history lookup = Ret repo →
     answer_repo gh (history ++ [lookup; create]) lookup = Ret repo →
     made (_ ← GitRepo.create_or_update_file gh (request None);
           GitRepo.create_or_update_file gh (request (Some sha))) history
     = [lookup; create; lookup; update sha]).
Proof.
  intros lookup create update request.
  assert (Hnone : ∀ h, answer_repo gh h lookup = Ret repo →
            (GitRepo.create_or_update_file gh (request None) h).2 = h ++ [lookup; create]).
  { intros h Hrepo. unfold GitRepo.create_or_update_file. run_handler.
    subst lookup. rewrite Hrepo. simpl.
    destruct (answer_write gh _ _) as [v|e]; simpl.
    - destruct (json_dumps v); simpl; by rewrite <- app_assoc.
    - by rewrite <- app_assoc. }
  assert (Hsome : ∀ h sha, sha ≠ "" → answer_repo gh h lookup = Ret repo →
            (GitRepo.create_or_update_file gh (request (Some sha)) h).2
            = h ++ [lookup; update sha]).
  { intros h sha Hsha Hrepo. unfold GitRepo.create_or_update_file. run_handler.
    subst lookup. rewrite Hrepo. simpl.
    destruct (String.eqb_spec sha "") as [?|_]; [done|]. simpl.
    destruct (answer_write gh _ _) as [v|e]; simpl.
    - destruct (json_dumps v); simpl; by rewrite <- app_assoc.
    - by rewrite <- app_assoc. }
  split.
  - intros Hrepo. split; [|split].
    + apply made_app. by apply Hnone.
    + apply made_app. apply (Hnone history Hrepo).
    + intros sha Hsha. apply made_app. by apply Hsome.
  - intros sha Hsha Hrepo Hrepo'. apply made_app.
    unfold mbind, M_bind, bind.
    pose proof (Hnone history Hrepo) as H1.
    destruct (create_or_update_file_returns gh (request None) history) as [r Hr].
    destruct (GitRepo.create_or_update_file gh (request None) history) as [r1 h1].
    simpl in H1, Hr. subst r1 h1.
    rewrite (Hsome _ sha Hsha Hrepo'). by rewrite <- app_assoc.
Qed.

Lemma create_or_update_by_sha_witness :
  made (GitRepo.create_or_update_file stub
          (GitRepo.mkCreateOrUpdateFileParams "acme" "widgets" "README.md" "hello"
             "add readme" "main" (Some "95b966ae1c166bd92f8ae7d1c313e738c731dfc3"))) []
  = [Get_repo "acme/widgets";
     Repo_update_file "acme/widgets" "README.md" "add readme" "hello"
       "95b966ae1c166bd92f8ae7d1c313e738c731dfc3" "main"].
Proof.
  apply (proj1 (create_or_update_by_sha stub "acme" "widgets" "README.md" "hello"
                  "add readme" "main" [] widgets)).
  - reflexivity.
  - discriminate.
Defined.

(** C6 (as stated, refuted).  A request whose sha is present and empty is
    served by a creation, no update is made. *)
Lemma empty_sha_is_a_creation :
  let params :=
    GitRepo.mkCreateOrUpdateFileParams "acme" "widgets" "README.md" "hello"
      "add readme" "main" (Some "") in
  ¬ writes_by_presence "acme/widgets" params
      (made (GitRepo.create_or_update_file stub params) []).
Proof.
  intros params. unfold writes_by_presence. vm_compute made. simpl.
  intros Hin. apply list_elem_of_In in Hin. simpl in Hin.
  destruct Hin as [H|[H|[]]]; discriminate H.
Qed.

(** ** C8: the defaults of list_pull_requests *)

(** C8.  With state, sort and direction omitted, the pull listing that
    list_pull_requests forwards carries state open, sort created and
    direction desc: on a repository that resolves, the run makes exactly the
    two lookups and that listing call; and whatever the upstream answers, no
    listing call with other values is ever made. *)
Theorem list_pull_requests_defaults (g : Github) (data : PullRequests.ListPullRequestsInput)
    (history : list call) :
  PullRequests.lp_state data = None →
  PullRequests.lp_sort data = None →
  PullRequests.lp_direction data = None →
  (∀ repo state sort direction,
     Repo_get_pulls repo state sort direction
       ∈ made (PullRequests.list_pull_requests g data) history →
     state = "open" ∧ sort = "created" ∧ direction = "desc")
  ∧ (∀ user repo,
       let c1 := Get_user (Some (PullRequests.lp_owner data)) in
       let c2 := User_get_repo (user_login user) (PullRequests.lp_repo data) in
       answer_user g history c1 = Ret user →
       answer_repo g (history ++ [c1]) c2 = Ret repo →
       made (PullRequests.list_pull_requests g data) history
       = [c1; c2; Repo_get_pulls (repo_full_name repo) "open" "created" "desc"]).
Proof.
  intros Hstate Hsort Hdirection.
  assert (Hlog : ∀ log,
            made (PullRequests.list_pull_requests g data) history = log →
            ∀ repo state sort direction,
              Repo_get_pulls repo state sort direction ∈ log →
              state = "open" ∧ sort = "created" ∧ direction = "desc").
  { intros log <-. unfold made, PullRequests.list_pull_requests, PullRequests.get_repo.
    run_handler. rewrite Hstate, Hsort, Hdirection. simpl.
    repeat (match goal with
            | |- context [match ?x with _ => _ end] =>
                lazymatch x with
                | context [match _ with _ => _ end] => fail
                | _ => destruct x; simpl
                end
            end);
    rewrite <- ?app_assoc, ?drop_app_length; simpl;
    intros ? ? ? ? Hin; apply list_elem_of_In in Hin; simpl in Hin;
    intuition congruence. }
  split; [by apply Hlog|].
  intros user repo c1 c2 Huser Hrepo. apply made_app.
  unfold PullRequests.list_pull_requests, PullRequests.get_repo. run_handler.
  subst c1 c2. rewrite Huser. simpl. rewrite Hrepo. simpl.
  rewrite Hstate, Hsort, Hdirection. simpl.
  destruct (answer_objects g _ _) as [pulls|e]; simpl;
    [|destruct (is_GithubException e); simpl]; by rewrite <- !app_assoc.
Qed.

Lemma list_pull_requests_defaults_witness :
  made (PullRequests.list_pull_requests stub
          (PullRequests.mkListPullRequestsInput "acme" "widgets" None None None None None
             (Some 30) (Some 1))) []
  = [Get_user (Some "acme"); User_get_repo "acme" "widgets";
     Repo_get_pulls "acme/widgets" "open" "created" "desc"].
Proof.
  apply (proj2 (list_pull_requests_defaults stub
                  (PullRequests.mkListPullRequestsInput "acme" "widgets" None None None
                     None None (Some 30) (Some 1)) [] eq_refl eq_refl eq_refl)
           (mkNamedUser "acme") widgets);
    reflexivity.
Defined.

(** ** C9: sort and order of search_code *)

(** C9.  Two search_code requests that agree on q, page and per_page make
    the same upstream calls and give the same result, whatever their sort
    and order. *)
Theorem search_code_ignores_sort_and_order (g : Github)
    (p1 p2 : SearchRepo.SearchCodeParams) (history : list call) :
  SearchRepo.sc_q p1 = SearchRepo.sc_q p2 →
  SearchRepo.sc_page p1 = SearchRepo.sc_page p2 →
  SearchRepo.sc_per_page p1 = SearchRepo.sc_per_page p2 →
  SearchRepo.search_code g p1 history = SearchRepo.search_code g p2 history.
Proof.
  intros Hq Hpage Hper. unfold SearchRepo.search_code.
  by rewrite Hq, Hpage, Hper.
Qed.

Lemma search_code_ignores_sort_and_order_witness :
  SearchRepo.search_code stub
    (SearchRepo.mkSearchCodeParams "FastMCP" (Some "indexed") (Some "asc") (Some 30) (Some 1))
    []
  = SearchRepo.search_code stub
      (SearchRepo.mkSearchCodeParams "FastMCP" None (Some "desc") (Some 30) (Some 1)) [].
Proof.
  apply search_code_ignores_sort_and_order; reflexivity.
Defined.

(** What search_code asks the upstream: the query alone. *)
Lemma search_code_query (g : Github) (params : SearchRepo.SearchCodeParams)
    (history : list call) :
  made (SearchRepo.search_code g params) history = [Search_code (SearchRepo.sc_q params)].
Proof.
  apply made_app. unfold SearchRepo.search_code. first_call.
Qed.

(** ** The local machine: what each git command changes *)

Lemma post_ret {S A} (a : A) (s : S) (Q : res A → S → Prop) :
  Q (Ret a) s → post (mret a) s Q.
Proof. done. Qed.

Lemma post_bind {S A B} (m : M S A) (k : A → M S B) (s : S) (Q : res B → S → Prop) :
  post m s (fun r s' =>
    match r with
    | Ret a => post (k a) s' Q
    | Raise e => Q (Raise e) s'
    end) →
  post (m ≫= k) s Q.
Proof.
  unfold post, mbind, M_bind, bind. by destruct (m s) as [[a|e] s'].
Qed.

Lemma post_try {S A} (body : M S A) (catches : exn → bool) (handler : exn → M S A)
    (s : S) (Q : res A → S → Prop) :
  post body s (fun r s' =>
    match r with
    | Ret a => Q (Ret a) s'
    | Raise e => if catches e then post (handler e) s' Q else Q (Raise e) s'
    end) →
  post (try_except body catches handler) s Q.
Proof.
  unfold post, try_except. destruct (body s) as [[a|e] s']; simpl; [done|].
  by destruct (catches e).
Qed.

Lemma post_mono {S A} (m : M S A) (s : S) (Q Q' : res A → S → Prop) :
  post m s Q → (∀ r s', Q r s' → Q' r s') → post m s Q'.
Proof. unfold post. auto. Qed.

Lemma kept_refl (w : world) : kept w w.
Proof. by split. Qed.

Lemma kept_trans (w1 w2 w3 : world) : kept w1 w2 → kept w2 w3 → kept w1 w3.
Proof.
  intros [Hc1 Hp1] [Hc2 Hp2]. split; [intros p|]; congruence.
Qed.

Lemma kept_tick (w : world) : kept w (tick w).
Proof. by split. Qed.

Lemma commits_at_set_repo_same (p q : string) (r : repository) (w : world) :
  history r = commits_at q w → commits_at p (set_repo q r w) = commits_at p w.
Proof.
  intros Hsame. unfold set_repo.
  destruct (fs w !! q) as [d|] eqn:Hq; [|done].
  unfold commits_at, repo_at in *. simpl.
  destruct (decide (p = q)) as [->|Hne].
  - by rewrite lookup_insert_eq.
  - by rewrite lookup_insert_ne.
Qed.

Lemma commits_at_set_repo_other (p q : string) (r : repository) (w : world) :
  p ≠ q → commits_at p (set_repo q r w) = commits_at p w.
Proof.
  intros Hne. unfold set_repo. destruct (fs w !! q) as [d|]; [|done].
  unfold commits_at, repo_at. simpl. by rewrite lookup_insert_ne.
Qed.

Lemma commits_at_set_repo_here (q : string) (r r0 : repository) (w : world) :
  repo_at q w = Some r0 → commits_at q (set_repo q r w) = history r.
Proof.
  unfold set_repo, commits_at, repo_at.
  destruct (fs w !! q) as [d|] eqn:Hq; [|done]. simpl.
  intros _. by rewrite lookup_insert_eq.
Qed.

Lemma pushes_set_repo (q : string) (r : repository) (w : world) :
  pushes (set_repo q r w) = pushes w.
Proof. unfold set_repo. by destruct (fs w !! q). Qed.

Lemma kept_set_repo (q : string) (r : repository) (w : world) :
  history r = commits_at q w → kept w (set_repo q r w).
Proof.
  intros Hsame. split.
  - intros p. by apply commits_at_set_repo_same.
  - apply pushes_set_repo.
Qed.

Section CommandEffects.

Variable fault : nat → option exn.

(** A command either fails on the environment's fault or runs one tick
    later. *)
Lemma post_command {A} (act : M world A) (w : world) (Q : res A → world → Prop) :
  (∀ e, Q (Raise e) (tick w)) → post act (tick w) Q → post (command fault act) w Q.
Proof.
  unfold post, command. intros Hfail Hrun.
  destruct (fault (clock w)); simpl; [apply Hfail | apply Hrun].
Qed.

(** A command on a repository that leaves its history alone keeps
    everything. *)
Lemma post_on_repo_kept {A} (path : string) (act : repository → res A * repository)
    (w : world) :
  (∀ r, history (act r).2 = history r) →
  post (on_repo fault path act) w (fun _ w' => kept w w').
Proof.
  intros Hact. apply post_command; [intros _; apply kept_tick|].
  unfold post. destruct (repo_at path (tick w)) as [r|] eqn:Hr; [|apply kept_tick].
  specialize (Hact r). destruct (act r) as [a r']. simpl in *.
  apply (kept_trans _ (tick w)); [apply kept_tick|].
  apply kept_set_repo. unfold commits_at. by rewrite Hr.
Qed.

Lemma post_Repo (path : string) (w : world) :
  post (Repo fault path) w (fun r w' => kept w w' ∧ ∀ repo, r = Ret repo → repo = path).
Proof.
  unfold Repo, on_repo. apply post_command.
  - intros e. split; [apply kept_tick | done].
  - unfold post. destruct (repo_at path (tick w)) as [r|] eqn:Hr; simpl.
    + split; [|by intros ? [= <-]].
      apply (kept_trans _ (tick w)); [apply kept_tick|].
      apply kept_set_repo. unfold commits_at. by rewrite Hr.
    + split; [apply kept_tick | done].
Qed.

Lemma post_Repo_init (path : string) (w : world) :
  post (Repo_init fault path) w
    (fun r w' => kept w w' ∧ ∀ repo, r = Ret repo → repo = path).
Proof.
  unfold Repo_init. apply post_command.
  - intros e. split; [apply kept_tick | done].
  - unfold post. destruct (repo_at path (tick w)) as [r|] eqn:Hr; simpl.
    + split; [apply kept_tick | by intros ? [= <-]].
    + split; [|by intros ? [= <-]].
      apply (kept_trans _ (tick w)); [apply kept_tick|].
      apply kept_set_repo. unfold commits_at. by rewrite Hr.
Qed.

Lemma post_git_add_all (repo : string) (w : world) :
  post (git_add_all fault repo) w (fun _ w' => kept w w').
Proof.
  unfold git_add_all. apply post_command; [intros _; apply kept_tick|].
  unfold post.
  destruct (fs (tick w) !! repo) as [[fl [r|]]|] eqn:Hd; simpl; try apply kept_tick.
  apply (kept_trans _ (tick w)); [apply kept_tick|].
  apply kept_set_repo. unfold commits_at, repo_at. by rewrite Hd.
Qed.

Lemma post_git_branch_M (repo name : string) (w : world) :
  post (git_branch_M fault repo name) w (fun _ w' => kept w w').
Proof. by apply post_on_repo_kept. Qed.

Lemma post_create_remote (repo name url : string) (w : world) :
  post (create_remote fault repo name url) w (fun _ w' => kept w w').
Proof. by apply post_on_repo_kept. Qed.

(** The one command that adds a commit: it adds exactly one, with the
    message it is given, on top of what HEAD reaches. *)
Lemma post_index_commit (repo msg : string) (w : world) :
  post (index_commit fault repo msg) w (fun _ w' =>
    pushes w' = pushes w
    ∧ (commits_at repo w' = commits_at repo w
       ∨ ∃ tr, commits_at repo w' = commits_at repo w ++ [mkCommit msg tr])).
Proof.
  unfold index_commit, on_repo. apply post_command.
  - intros _. split; [done | by left].
  - unfold post. destruct (repo_at repo (tick w)) as [r|] eqn:Hr; simpl.
    + split; [by rewrite pushes_set_repo|]. right. exists (index r).
      rewrite (commits_at_set_repo_here _ _ r) by done. simpl.
      unfold commits_at. change (repo_at repo w) with (repo_at repo (tick w)).
      by rewrite Hr.
    + split; [done | by left].
Qed.

(** The one command that pushes: it adds at most one push, with the refspec
    it is given. *)
Lemma post_push (origin : string * string) (refspec : string) (w : world) :
  post (push fault origin refspec) w (fun _ w' =>
    (∀ p, commits_at p w' = commits_at p w)
    ∧ (pushes w' = pushes w
       ∨ ∃ url cs, pushes w' = pushes w ++ [mkPush url refspec cs])).
Proof.
  unfold push. apply post_command.
  - intros _. split; [done | by left].
  - unfold post. destruct (repo_at origin.1 (tick w)) as [r|]; simpl.
    + destruct (url_of origin.2 (remotes r)) as [url|]; simpl.
      * split; [done|]. right. by exists url, (history r).
      * split; [done | by left].
    + split; [done | by left].
Qed.

End CommandEffects.

(** ** push_to_github: at most one commit, at most one push *)

Section PushEffects.

Variable fault : nat → option exn.
Variables (repo msg branch remote_url : string).
Variable w : world.

Let refspec : string := branch +:+ ":" +:+ branch.

(** From the branch rename on: nothing is committed any more, one push may
    be added. *)
Lemma post_rename_and_push (final : tool_result) (w3 : world) :
  pushes w3 = pushes w →
  (commits_at repo w3 = commits_at repo w
   ∨ (commits_at repo w = [] ∧ ∃ tr, commits_at repo w3 = [mkCommit msg tr])) →
  post (git_branch_M fault repo branch;;
        names ← remote_names repo;
        origin ←
          (if negb (bool_decide ("origin" ∈ names))
           then create_remote fault repo "origin" remote_url
           else remote repo "origin");
        push fault origin refspec;;
        mret final)
    w3 (fun _ w' => pushed_once repo msg refspec w w').
Proof.
  intros Hpushes Hcommits.
  assert (Hkept : ∀ w', kept w3 w' → pushed_once repo msg refspec w w').
  { intros w' [Hc Hp]. split; [rewrite Hc | rewrite Hp]; auto. }
  apply post_bind. eapply post_mono; [apply post_git_branch_M|].
  intros [[]|e] w4 H4; simpl; [|by apply Hkept].
  apply post_bind. unfold post at 1, remote_names. simpl.
  apply post_bind.
  assert (Horigin : ∀ m : M world (string * string),
            post m w4 (fun _ w' => kept w4 w') →
            post m w4 (fun r s' =>
              match r with
              | Ret a => post (push fault a refspec;; mret final) s'
                           (fun _ w' => pushed_once repo msg refspec w w')
              | Raise _ => pushed_once repo msg refspec w s'
              end)).
  { intros m Hm. eapply post_mono; [exact Hm|].
    intros [origin|e] w5 H5; simpl; [|by eauto using kept_trans].
    apply post_bind. eapply post_mono; [apply post_push|].
    intros r w6 [Hc6 Hp6].
    assert (Hkept5 : kept w3 w5) by eauto using kept_trans.
    destruct Hkept5 as [Hc5 Hp5].
    assert (pushed_once repo msg refspec w w6).
    { split; [by rewrite Hc6, Hc5|].
      destruct Hp6 as [->|(url & cs & ->)]; rewrite Hp5, Hpushes; eauto. }
    by destruct r. }
  destruct (negb (bool_decide ("origin" ∈ _))); apply Horigin.
  - apply post_create_remote.
  - apply kept_refl.
Qed.

(** From the staging on, in a state in which the run has kept everything so
    far: the commit is made only on an empty history. *)
Lemma post_stage_commit_push (final : tool_result) (w1 : world) :
  kept w w1 →
  post (git_add_all fault repo;;
        valid ← head_is_valid repo;
        (if negb valid then index_commit fault repo msg else mret ());;
        git_branch_M fault repo branch;;
        names ← remote_names repo;
        origin ←
          (if negb (bool_decide ("origin" ∈ names))
           then create_remote fault repo "origin" remote_url
           else remote repo "origin");
        push fault origin refspec;;
        mret final)
    w1 (fun _ w' => pushed_once repo msg refspec w w').
Proof.
  intros Hkept1.
  assert (Hkept : ∀ w', kept w w' → pushed_once repo msg refspec w w').
  { intros w' [Hc Hp]. split; left; auto. }
  apply post_bind. eapply post_mono; [apply post_git_add_all|].
  intros [[]|e] w2 H2; simpl; [|by eauto using kept_trans].
  assert (Hkept2 : kept w w2) by eauto using kept_trans.
  destruct Hkept2 as [Hc2 Hp2].
  apply post_bind. unfold post at 1, head_is_valid. simpl.
  apply post_bind.
  case_bool_decide as Hempty; simpl.
  - eapply post_mono; [apply post_index_commit|].
    intros r w3 [Hp3 Hc3].
    assert (pushes w3 = pushes w) by congruence.
    assert (commits_at repo w3 = commits_at repo w
            ∨ (commits_at repo w = [] ∧ ∃ tr, commits_at repo w3 = [mkCommit msg tr])).
    { rewrite Hempty in Hc3. rewrite <- Hc2, Hempty.
      destruct Hc3 as [?|[tr ?]]; [by left | right; eauto]. }
    destruct r as [[]|e]; simpl; [by apply post_rename_and_push | by split; auto].
  - apply post_ret. apply post_rename_and_push; [done | left; apply Hc2].
Qed.

End PushEffects.

(** What one run of push_to_github does to the working copy it is pointed
    at and to the pushes. *)
Lemma push_to_github_effect (fault : nat → option exn)
    (params : GitRepo.GitPushLocalTOGIT) (w : world) :
  let branch := or_default (Some (GitRepo.branch params)) "main" in
  pushed_once (GitRepo.repo_path params)
    (or_default (GitRepo.commit_msg params) "Initial commit")
    (branch +:+ ":" +:+ branch)
    w (GitRepo.push_to_github fault params w).2.
Proof.
  intros branch.
  set (msg := or_default (GitRepo.commit_msg params) "Initial commit").
  set (path := GitRepo.repo_path params).
  change (post (GitRepo.push_to_github fault params) w
            (fun _ w' => pushed_once path msg (branch +:+ ":" +:+ branch) w w')).
  assert (Hkept : ∀ w', kept w w' → pushed_once path msg (branch +:+ ":" +:+ branch) w w').
  { intros w' [Hc Hp]. split; left; auto. }
  unfold GitRepo.push_to_github. apply post_try.
  eapply post_mono with
    (Q := fun _ w' => pushed_once path msg (branch +:+ ":" +:+ branch) w w');
    [|by intros [a|e] w' H].
  apply post_bind. unfold post at 1, path_exists. simpl.
  destruct (negb (bool_decide _)); [apply post_ret, Hkept, kept_refl|].
  apply post_bind. apply post_try.
  eapply post_mono; [apply post_Repo|].
  intros [repo|e] w1 [H1 Hrepo]; simpl.
  - rewrite (Hrepo repo eq_refl). by apply post_stage_commit_push.
  - destruct (is_InvalidGitRepositoryError e); [|by apply Hkept].
    eapply post_mono; [apply post_Repo_init|].
    intros [repo|e'] w2 [H2 Hrepo2]; simpl; [|by eauto using kept_trans].
    rewrite (Hrepo2 repo eq_refl). apply post_stage_commit_push.
    eauto using kept_trans.
Qed.

(** ** The local machine, step by step *)

Lemma url_of_elem (name : string) (rs : list (string * string)) :
  name ∈ rs.*1 ↔ is_Some (url_of name rs).
Proof.
  unfold url_of. induction rs as [|[n u] rs IH]; simpl.
  - split; [by intros ?%elem_of_nil | by intros [? ?]].
  - rewrite elem_of_cons. case_decide as Hn; simpl in Hn.
    + split; [by eauto | by left].
    + rewrite IH. destruct (list_find _ rs) as [[i p]|]; simpl; split;
        try (by intros [?|[? ?]]); by eauto.
Qed.

Lemma at_state_repo_at (path : string) (d : workdir) (ps : list push_record) (c : nat)
    (w : world) :
  at_state path d ps c w → repo_at path w = dot_git d.
Proof. intros (Hfs & _). unfold repo_at. by rewrite Hfs. Qed.

Lemma at_state_commits (path : string) (fl : list string) (r : repository)
    (ps : list push_record) (c : nat) (w : world) :
  at_state path (mkWorkdir fl (Some r)) ps c w → commits_at path w = history r.
Proof. intros H. unfold commits_at. by rewrite (at_state_repo_at _ _ _ _ _ H). Qed.

Lemma at_state_tick (path : string) (d : workdir) (ps : list push_record) (c : nat)
    (w : world) :
  at_state path d ps c w → at_state path d ps (S c) (tick w).
Proof. intros (Hfs & Hps & Hc). repeat split; simpl; congruence. Qed.

Lemma at_state_set_repo (path : string) (d : workdir) (r : repository)
    (ps : list push_record) (c : nat) (w : world) :
  at_state path d ps c w →
  at_state path (mkWorkdir (files d) (Some r)) ps c (set_repo path r w).
Proof.
  intros (Hfs & Hps & Hc). unfold set_repo. rewrite Hfs.
  repeat split; simpl; [by rewrite lookup_insert_eq | done | done].
Qed.

Section Steps.

Variable fault : nat → option exn.
Variables (path : string) (fl : list string) (ps : list push_record) (c : nat).

(** A command the environment lets fail changes nothing but the count. *)
Lemma step_fault {A} (act : M world A) (d : workdir) (e : exn) (w : world) :
  at_state path d ps c w → fault c = Some e →
  post (command fault act) w (fun res w' => res = Raise e ∧ at_state path d ps (S c) w').
Proof.
  intros Hw He. unfold post, command.
  destruct Hw as (Hfs & Hps & Hc). rewrite Hc, He. simpl.
  split; [done|]. repeat split; simpl; congruence.
Qed.

Lemma step_on_repo {A} (act : repository → res A * repository) (r : repository)
    (w : world) :
  at_state path (mkWorkdir fl (Some r)) ps c w → fault c = None →
  post (on_repo fault path act) w (fun res w' =>
    res = (act r).1 ∧ at_state path (mkWorkdir fl (Some (act r).2)) ps (S c) w').
Proof.
  intros Hw Hok. unfold post, on_repo, command.
  pose proof (at_state_tick _ _ _ _ _ Hw) as Ht.
  destruct Hw as (Hfs & Hps & Hc). rewrite Hc, Hok.
  rewrite (at_state_repo_at _ _ _ _ _ Ht). simpl.
  destruct (act r) as [a r']. simpl. split; [done|].
  apply (at_state_set_repo _ _ r' _ _ _ Ht).
Qed.

Lemma step_Repo (r : repository) (w : world) :
  at_state path (mkWorkdir fl (Some r)) ps c w → fault c = None →
  post (Repo fault path) w (fun res w' =>
    res = Ret path ∧ at_state path (mkWorkdir fl (Some r)) ps (S c) w').
Proof. intros Hw Hok. unfold Repo. exact (step_on_repo _ r w Hw Hok). Qed.

(** [Repo(path)] on a directory that holds no repository. *)
Lemma step_Repo_missing (w : world) :
  at_state path (mkWorkdir fl None) ps c w → fault c = None →
  post (Repo fault path) w (fun res w' =>
    res = Raise (InvalidGitRepositoryError path)
    ∧ at_state path (mkWorkdir fl None) ps (S c) w').
Proof.
  intros Hw Hok. unfold post, Repo, on_repo, command.
  pose proof (at_state_tick _ _ _ _ _ Hw) as Ht.
  destruct Hw as (Hfs & Hps & Hc). rewrite Hc, Hok.
  by rewrite (at_state_repo_at _ _ _ _ _ Ht).
Qed.

Lemma step_Repo_init (w : world) :
  at_state path (mkWorkdir fl None) ps c w → fault c = None →
  post (Repo_init fault path) w (fun res w' =>
    res = Ret path
    ∧ at_state path (mkWorkdir fl (Some (mkRepo [] [] "master" []))) ps (S c) w').
Proof.
  intros Hw Hok. unfold post, Repo_init, command.
  pose proof (at_state_tick _ _ _ _ _ Hw) as Ht.
  destruct Hw as (Hfs & Hps & Hc). rewrite Hc, Hok.
  rewrite (at_state_repo_at _ _ _ _ _ Ht). simpl. split; [done|].
  apply (at_state_set_repo _ _ _ _ _ _ Ht).
Qed.

Lemma step_git_add_all (r : repository) (w : world) :
  at_state path (mkWorkdir fl (Some r)) ps c w → fault c = None →
  post (git_add_all fault path) w (fun res w' =>
    res = Ret ()
    ∧ at_state path
        (mkWorkdir fl (Some (mkRepo fl (history r) (active_branch r) (remotes r))))
        ps (S c) w').
Proof.
  intros Hw Hok. unfold post, git_add_all, command.
  pose proof (at_state_tick _ _ _ _ _ Hw) as Ht.
  destruct Hw as (Hfs & Hps & Hc). rewrite Hc, Hok.
  destruct Ht as (Hfs' & Hrest). rewrite Hfs'. simpl. split; [done|].
  by apply (at_state_set_repo _ (mkWorkdir fl (Some r))).
Qed.

Lemma step_index_commit (msg : string) (r : repository) (w : world) :
  at_state path (mkWorkdir fl (Some r)) ps c w → fault c = None →
  post (index_commit fault path msg) w (fun res w' =>
    res = Ret ()
    ∧ at_state path
        (mkWorkdir fl (Some (mkRepo (index r) (history r ++ [mkCommit msg (index r)])
                               (active_branch r) (remotes r))))
        ps (S c) w').
Proof. intros Hw Hok. unfold index_commit. exact (step_on_repo _ r w Hw Hok). Qed.

Lemma step_git_branch_M (name : string) (r : repository) (w : world) :
  at_state path (mkWorkdir fl (Some r)) ps c w → fault c = None →
  post (git_branch_M fault path name) w (fun res w' =>
    res = Ret ()
    ∧ at_state path (mkWorkdir fl (Some (mkRepo (index r) (history r) name (remotes r))))
        ps (S c) w').
Proof. intros Hw Hok. unfold git_branch_M. exact (step_on_repo _ r w Hw Hok). Qed.

Lemma step_create_remote (name url : string) (r : repository) (w : world) :
  at_state path (mkWorkdir fl (Some r)) ps c w → fault c = None →
  post (create_remote fault path name url) w (fun res w' =>
    res = Ret (path, name)
    ∧ at_state path
        (mkWorkdir fl (Some (mkRepo (index r) (history r) (active_branch r)
                               (remotes r ++ [(name, url)]))))
        ps (S c) w').
Proof. intros Hw Hok. unfold create_remote. exact (step_on_repo _ r w Hw Hok). Qed.

Lemma step_push (name refspec url : string) (r : repository) (w : world) :
  at_state path (mkWorkdir fl (Some r)) ps c w → fault c = None →
  url_of name (remotes r) = Some url →
  post (push fault (path, name) refspec) w (fun res w' =>
    res = Ret ()
    ∧ fs w' !! path = Some (mkWorkdir fl (Some r))
    ∧ pushes w' = ps ++ [mkPush url refspec (history r)]
    ∧ clock w' = S c).
Proof.
  intros Hw Hok Hurl. unfold post, push, command.
  pose proof (at_state_tick _ _ _ _ _ Hw) as Ht.
  destruct Hw as (Hfs & Hps & Hc). rewrite Hc, Hok. simpl.
  rewrite (at_state_repo_at _ _ _ _ _ Ht). simpl. rewrite Hurl. simpl.
  repeat split; simpl; congruence.
Qed.

(** What the handlers read without running a command. *)
Lemma read_path_exists (d : workdir) (w : world) :
  at_state path d ps c w → path_exists path w = (Ret true, w).
Proof.
  intros (Hfs & _). unfold path_exists. rewrite Hfs.
  by rewrite bool_decide_eq_true_2.
Qed.

Lemma read_head_is_valid (r : repository) (w : world) :
  at_state path (mkWorkdir fl (Some r)) ps c w →
  head_is_valid path w = (Ret (negb (bool_decide (history r = []))), w).
Proof. intros Hw. unfold head_is_valid. by rewrite (at_state_commits _ _ _ _ _ _ Hw). Qed.

Lemma read_remote_names (r : repository) (w : world) :
  at_state path (mkWorkdir fl (Some r)) ps c w →
  remote_names path w = (Ret (remotes r).*1, w).
Proof. intros Hw. unfold remote_names. by rewrite (at_state_repo_at _ _ _ _ _ Hw). Qed.

Lemma read_remote_by_name (name : string) (r : repository) (w : world) :
  at_state path (mkWorkdir fl (Some r)) ps c w →
  GitUtils.remote_by_name path name w
  = ((if bool_decide (name ∈ (remotes r).*1) then Ret (path, name)
      else Raise (ValueError ("Remote named '" +:+ name +:+ "' didn't exist"))), w).
Proof.
  intros Hw. unfold GitUtils.remote_by_name. rewrite (at_state_repo_at _ _ _ _ _ Hw). simpl.
  by case_bool_decide.
Qed.

End Steps.

Ltac step lemma :=
  apply post_bind; eapply post_mono; [eapply lemma; eauto |];
  intros ? ? [-> ?]; simpl.

(** ** push_to_github: the runs in which no command fails *)

Lemma url_of_app_new (name url : string) (rs : list (string * string)) :
  name ∉ rs.*1 → url_of name (rs ++ [(name, url)]) = Some url.
Proof.
  unfold url_of. induction rs as [|[n u] rs IH]; simpl; intros Hnew.
  - by rewrite decide_True.
  - apply not_elem_of_cons in Hnew as [Hne Hnew].
    rewrite decide_False by (simpl; congruence). specialize (IH Hnew).
    by destruct (list_find _ (rs ++ _)) as [[i p]|].
Qed.

Section PushRuns.

Variable fault : nat → option exn.
Hypothesis no_failure : ∀ n, fault n = None.

Variables (path msg branch remote_url : string) (final : tool_result).
Variables (fl : list string) (ps : list push_record).

Let refspec : string := branch +:+ ":" +:+ branch.

(** From the branch rename on, on a repository whose index holds the files:
    the branch is renamed, origin is created unless it is there, and what
    HEAD reaches is pushed to the URL origin has. *)
Lemma push_end_run (r : repository) (c : nat) (w : world) :
  at_state path (mkWorkdir fl (Some r)) ps c w →
  let rems :=
    if bool_decide ("origin" ∈ (remotes r).*1) then remotes r
    else remotes r ++ [("origin", remote_url)] in
  let url := default remote_url (url_of "origin" (remotes r)) in
  post (git_branch_M fault path branch;;
        names ← remote_names path;
        origin ←
          (if negb (bool_decide ("origin" ∈ names))
           then create_remote fault path "origin" remote_url
           else remote path "origin");
        push fault origin refspec;;
        mret final)
    w (fun res w' =>
         res = Ret final
         ∧ fs w' !! path = Some (mkWorkdir fl (Some (mkRepo (index r) (history r) branch rems)))
         ∧ pushes w' = ps ++ [mkPush url refspec (history r)]).
Proof.
  intros Hw rems url. step step_git_branch_M.
  apply post_bind. unfold post at 1. erewrite read_remote_names by eauto. simpl.
  apply post_bind. subst rems url. case_bool_decide as Horigin; simpl.
  - apply post_ret.
    apply url_of_elem in Horigin as [u Hu]. rewrite Hu. simpl.
    apply post_bind. eapply post_mono; [eapply step_push; eauto|].
    by intros res w' (-> & Hfs & Hps & _).
  - eapply post_mono; [eapply step_create_remote; eauto|].
    intros ? ? [-> H']. simpl.
    assert (url_of "origin" (remotes r) = None) as ->.
    { destruct (url_of "origin" (remotes r)) eqn:Hu; [|done].
      exfalso. apply Horigin, url_of_elem. by rewrite Hu. }
    simpl.
    apply post_bind. eapply post_mono; [eapply step_push; eauto|].
    + simpl. by apply url_of_app_new.
    + by intros res w' (-> & Hfs & Hps & _).
Qed.

(** From the staging on: everything is staged, a commit is made on an empty
    history only. *)
Lemma push_tail_run (r : repository) (c : nat) (w : world) :
  at_state path (mkWorkdir fl (Some r)) ps c w →
  let hist := if bool_decide (history r = []) then [mkCommit msg fl] else history r in
  let rems :=
    if bool_decide ("origin" ∈ (remotes r).*1) then remotes r
    else remotes r ++ [("origin", remote_url)] in
  let url := default remote_url (url_of "origin" (remotes r)) in
  post (git_add_all fault path;;
        valid ← head_is_valid path;
        (if negb valid then index_commit fault path msg else mret ());;
        git_branch_M fault path branch;;
        names ← remote_names path;
        origin ←
          (if negb (bool_decide ("origin" ∈ names))
           then create_remote fault path "origin" remote_url
           else remote path "origin");
        push fault origin refspec;;
        mret final)
    w (fun res w' =>
         res = Ret final
         ∧ fs w' !! path = Some (mkWorkdir fl (Some (mkRepo fl hist branch rems)))
         ∧ pushes w' = ps ++ [mkPush url refspec hist]).
Proof.
  intros Hw hist rems url. step step_git_add_all.
  apply post_bind. unfold post at 1. erewrite read_head_is_valid by eauto. simpl.
  apply post_bind. subst hist. case_bool_decide as Hempty; simpl.
  - eapply post_mono; [eapply step_index_commit; eauto|].
    intros ? ? [-> H']. simpl.
    eapply post_mono; [eapply push_end_run; eauto|].
    simpl. rewrite Hempty. by intros res w' (-> & ? & ?).
  - apply post_ret.
    eapply post_mono; [eapply push_end_run; eauto|].
    by intros res w' (-> & ? & ?).
Qed.

End PushRuns.


(** A path that does not exist: the run says so and runs no git command. *)
Lemma push_run_no_path (fault : nat → option exn)
    (params : GitRepo.GitPushLocalTOGIT) (w : world) :
  fs w !! GitRepo.repo_path params = None →
  GitRepo.push_to_github fault params w
  = (Ret (Content (Str "❌ Repo path does not exist.")), w).
Proof.
  intros Hfs. unfold GitRepo.push_to_github, try_except, mbind, M_bind, bind, path_exists.
  rewrite Hfs. by rewrite bool_decide_eq_false_2 by (by intros [? ?]).
Qed.

(** The run on a directory that holds a repository. *)
Lemma push_run_on_repository (fault : nat → option exn)
    (params : GitRepo.GitPushLocalTOGIT) (fl : list string) (r : repository) (w : world) :
  (∀ n, fault n = None) →
  let path := GitRepo.repo_path params in
  let branch := or_default (Some (GitRepo.branch params)) "main" in
  let msg := or_default (GitRepo.commit_msg params) "Initial commit" in
  let hist := if bool_decide (history r = []) then [mkCommit msg fl] else history r in
  let rems :=
    if bool_decide ("origin" ∈ (remotes r).*1) then remotes r
    else remotes r ++ [("origin", GitRepo.remote_url params)] in
  let url := default (GitRepo.remote_url params) (url_of "origin" (remotes r)) in
  fs w !! path = Some (mkWorkdir fl (Some r)) →
  let run := GitRepo.push_to_github fault params w in
  run.1 = Ret (Content (Str ("✅ Successfully pushed to " +:+ GitRepo.remote_url params
                               +:+ " on branch '" +:+ branch +:+ "'.")))
  ∧ fs run.2 !! path = Some (mkWorkdir fl (Some (mkRepo fl hist branch rems)))
  ∧ pushes run.2 = pushes w ++ [mkPush url (branch +:+ ":" +:+ branch) hist].
Proof.
  intros Hok path branch msg hist rems url Hfs run.
  assert (Hw : at_state path (mkWorkdir fl (Some r)) (pushes w) (clock w) w) by done.
  set (Q := fun (res : res tool_result) (w' : world) =>
    res = Ret (Content (Str ("✅ Successfully pushed to " +:+ GitRepo.remote_url params
                               +:+ " on branch '" +:+ branch +:+ "'.")))
    ∧ fs w' !! path = Some (mkWorkdir fl (Some (mkRepo fl hist branch rems)))
    ∧ pushes w' = pushes w ++ [mkPush url (branch +:+ ":" +:+ branch) hist]).
  change (post (GitRepo.push_to_github fault params) w Q).
  unfold GitRepo.push_to_github. fold path branch msg.
  apply post_try.
  apply (post_mono _ _ Q); [|by intros res w' [-> ?]].
  apply post_bind. unfold post at 1. erewrite read_path_exists by eauto. simpl.
  apply post_bind. apply post_try.
  eapply post_mono; [eapply step_Repo; eauto|].
  intros ? ? [-> H1]. simpl.
  eapply post_mono; [eapply push_tail_run; eauto|].
  intros res w' H. exact H.
Qed.

(** The run on a directory that holds no repository yet. *)
Lemma push_run_first (fault : nat → option exn)
    (params : GitRepo.GitPushLocalTOGIT) (fl : list string) (w : world) :
  (∀ n, fault n = None) →
  let path := GitRepo.repo_path params in
  let branch := or_default (Some (GitRepo.branch params)) "main" in
  let msg := or_default (GitRepo.commit_msg params) "Initial commit" in
  let url := GitRepo.remote_url params in
  fs w !! path = Some (mkWorkdir fl None) →
  let run := GitRepo.push_to_github fault params w in
  run.1 = Ret (Content (Str ("✅ Successfully pushed to " +:+ url
                               +:+ " on branch '" +:+ branch +:+ "'.")))
  ∧ fs run.2 !! path
    = Some (mkWorkdir fl (Some (mkRepo fl [mkCommit msg fl] branch [("origin", url)])))
  ∧ pushes run.2 = pushes w ++ [mkPush url (branch +:+ ":" +:+ branch) [mkCommit msg fl]].
Proof.
  intros Hok path branch msg url Hfs run.
  assert (Hw : at_state path (mkWorkdir fl None) (pushes w) (clock w) w) by done.
  set (Q := fun (res : res tool_result) (w' : world) =>
    res = Ret (Content (Str ("✅ Successfully pushed to " +:+ url
                               +:+ " on branch '" +:+ branch +:+ "'.")))
    ∧ fs w' !! path
      = Some (mkWorkdir fl (Some (mkRepo fl [mkCommit msg fl] branch [("origin", url)])))
    ∧ pushes w' = pushes w ++ [mkPush url (branch +:+ ":" +:+ branch) [mkCommit msg fl]]).
  change (post (GitRepo.push_to_github fault params) w Q).
  unfold GitRepo.push_to_github. fold path branch msg url.
  apply post_try.
  apply (post_mono _ _ Q); [|by intros res w' [-> ?]].
  apply post_bind. unfold post at 1. erewrite read_path_exists by eauto. simpl.
  apply post_bind. apply post_try.
  eapply post_mono; [eapply step_Repo_missing; eauto|].
  intros ? ? [-> H1]. simpl.
  eapply post_mono; [eapply step_Repo_init; eauto|].
  intros ? ? [-> H2]. simpl.
  eapply post_mono; [eapply push_tail_run; eauto|].
  intros res w' H. exact H.
Qed.

(** ** C7: pushing twice *)


(** The two runs of the counterexample. *)
Example push_twice_after_failed_add :
  let params := GitRepo.mkGitPushLocalTOGIT "/srv/widgets" widgets_url "main" None in
  let fault := fails_at 2 (GitCommandError "Unable to create index.lock") in
  let first := GitRepo.push_to_github fault params fresh in
  let second := GitRepo.push_to_github fault params first.2 in
  first.1 = Ret (Content (Str "❌ Error: Unable to create index.lock"))
  ∧ repo_at "/srv/widgets" first.2 = Some (mkRepo [] [] "master" [])
  ∧ second.1 = Ret (Content (Str ("✅ Successfully pushed to " +:+ widgets_url
                                    +:+ " on branch 'main'.")))
  ∧ commits_at "/srv/widgets" second.2 = [mkCommit "Initial commit" ["README.md"]].
Proof. vm_compute. done. Qed.



(** The run the witness is about: the first push of the fresh directory
    initialises it, commits and pushes; the second pushes again and commits
    nothing. *)
Example push_twice_on_fresh :
  let params := GitRepo.mkGitPushLocalTOGIT "/srv/widgets" widgets_url "main" None in
  let w1 := (GitRepo.push_to_github no_fault params fresh).2 in
  let w2 := (GitRepo.push_to_github no_fault params w1).2 in
  commits_at "/srv/widgets" fresh = []
  ∧ commits_at "/srv/widgets" w1 = [mkCommit "Initial commit" ["README.md"]]
  ∧ commits_at "/srv/widgets" w2 = [mkCommit "Initial commit" ["README.md"]]
  ∧ length (pushes w2) = 2%nat.
Proof. vm_compute. done. Qed.

(** ** C10: the defaults of push_to_github *)

(** C10.  With commit_msg omitted, every commit a run of push_to_github
    adds carries the message Initial commit; with the branch field empty,
    every push the run adds has the refspec main:main, and the run is the
    run of the same request with branch main, in result and in effect.
    The commit and the push are made: when no git command fails, the run
    with both fields at their falsy values on a directory without a
    repository reports success on branch main, leaves the one commit
    Initial commit of the files on the branch main and pushes it with
    main:main; on a repository without commits the run with commit_msg
    omitted leaves the one commit Initial commit; on any repository the run
    with the empty branch does not fail: it reports success on branch main,
    names the branch main and pushes main:main. *)
Theorem push_to_github_defaults (fault : nat → option exn) (path url : string) (w : world) :
  (∀ branch,
     let w' := (GitRepo.push_to_github fault
                  (GitRepo.mkGitPushLocalTOGIT path url branch None) w).2 in
     ∃ new, commits_at path w' = commits_at path w ++ new
            ∧ Forall (fun c => message c = "Initial commit") new)
  ∧ (∀ msg,
       let w' := (GitRepo.push_to_github fault
                    (GitRepo.mkGitPushLocalTOGIT path url "" msg) w).2 in
       ∃ new, pushes w' = pushes w ++ new
              ∧ Forall (fun p => push_refspec p = "main:main") new)
  ∧ (∀ msg,
       GitRepo.push_to_github fault (GitRepo.mkGitPushLocalTOGIT path url "" msg) w
       = GitRepo.push_to_github fault (GitRepo.mkGitPushLocalTOGIT path url "main" msg) w)
  ∧ ((∀ n, fault n = None) →
     ∀ fl, fs w !! path = Some (mkWorkdir fl None) →
       let run := GitRepo.push_to_github fault
                    (GitRepo.mkGitPushLocalTOGIT path url "" None) w in
       run.1 = Ret (Content (Str ("✅ Successfully pushed to " +:+ url
                                    +:+ " on branch 'main'.")))
       ∧ fs run.2 !! path
         = Some (mkWorkdir fl
                   (Some (mkRepo fl [mkCommit "Initial commit" fl] "main" [("origin", url)])))
       ∧ pushes run.2 = pushes w ++ [mkPush url "main:main" [mkCommit "Initial commit" fl]])
  ∧ ((∀ n, fault n = None) →
     ∀ fl r branch, fs w !! path = Some (mkWorkdir fl (Some r)) → history r = [] →
       commits_at path
         (GitRepo.push_to_github fault
            (GitRepo.mkGitPushLocalTOGIT path url branch None) w).2
       = [mkCommit "Initial commit" fl])
  ∧ ((∀ n, fault n = None) →
     ∀ fl r msg, fs w !! path = Some (mkWorkdir fl (Some r)) →
       let run := GitRepo.push_to_github fault
                    (GitRepo.mkGitPushLocalTOGIT path url "" msg) w in
       run.1 = Ret (Content (Str ("✅ Successfully pushed to " +:+ url
                                    +:+ " on branch 'main'.")))
       ∧ active_branch <$> repo_at path run.2 = Some "main"
       ∧ ∃ target, pushes run.2
                   = pushes w ++ [mkPush target "main:main" (commits_at path run.2)]).
Proof.
  split; [|split; [|split; [|split; [|split]]]].
  - intros branch w'.
    destruct (push_to_github_effect fault
                (GitRepo.mkGitPushLocalTOGIT path url branch None) w) as [Hc _].
    simpl in Hc. fold w' in Hc.
    destruct Hc as [E|(E0 & tr & E)].
    + exists []. by rewrite app_nil_r.
    + exists [mkCommit "Initial commit" tr]. rewrite E, E0. split; [done|].
      by repeat constructor.
  - intros msg w'.
    destruct (push_to_github_effect fault
                (GitRepo.mkGitPushLocalTOGIT path url "" msg) w) as [_ Hp].
    simpl in Hp. fold w' in Hp.
    destruct Hp as [E|(u & cs & E)].
    + exists []. by rewrite app_nil_r.
    + exists [mkPush u "main:main" cs]. split; [done|]. by repeat constructor.
  - reflexivity.
  - intros Hok fl Hfs run.
    exact (push_run_first fault (GitRepo.mkGitPushLocalTOGIT path url "" None) fl w Hok Hfs).
  - intros Hok fl r branch Hfs Hempty.
    destruct (push_run_on_repository fault
                (GitRepo.mkGitPushLocalTOGIT path url branch None) fl r w Hok Hfs)
      as (_ & Hfs' & _).
    simpl in Hfs'. unfold commits_at, repo_at. rewrite Hfs'. simpl.
    by rewrite bool_decide_eq_true_2.
  - intros Hok fl r msg Hfs run.
    destruct (push_run_on_repository fault
                (GitRepo.mkGitPushLocalTOGIT path url "" msg) fl r w Hok Hfs)
      as (Hres & Hfs' & Hps).
    fold run in Hres, Hfs', Hps. simpl in Hres, Hfs', Hps.
    split; [exact Hres|]. unfold commits_at, repo_at. rewrite Hfs'. simpl.
    split; [done|]. eexists. exact Hps.
Qed.

(** The first push of the fresh directory with both fields at their falsy
    values. *)
Lemma push_to_github_defaults_witness :
  let run := GitRepo.push_to_github no_fault
               (GitRepo.mkGitPushLocalTOGIT "/srv/widgets" widgets_url "" None) fresh in
  run.1 = Ret (Content (Str ("✅ Successfully pushed to " +:+ widgets_url
                               +:+ " on branch 'main'.")))
  ∧ fs run.2 !! "/srv/widgets"
    = Some (mkWorkdir ["README.md"]
              (Some (mkRepo ["README.md"] [mkCommit "Initial commit" ["README.md"]] "main"
                       [("origin", widgets_url)])))
  ∧ pushes run.2 = [mkPush widgets_url "main:main" [mkCommit "Initial commit" ["README.md"]]].
Proof.
  intros run.
  exact (proj1 (proj2 (proj2 (proj2
           (push_to_github_defaults no_fault "/srv/widgets" widgets_url fresh))))
           (fun _ => eq_refl) ["README.md"] eq_refl).
Defined.

(** A first push with both fields at their falsy values. *)
Example push_with_defaults_on_fresh :
  let run := GitRepo.push_to_github no_fault
               (GitRepo.mkGitPushLocalTOGIT "/srv/widgets" widgets_url "" None) fresh in
  run.1 = Ret (Content (Str ("✅ Successfully pushed to " +:+ widgets_url
                               +:+ " on branch 'main'.")))
  ∧ pushes run.2 = [mkPush widgets_url "main:main" [mkCommit "Initial commit" ["README.md"]]]
  ∧ (active_branch <$> repo_at "/srv/widgets" run.2) = Some "main".
Proof. vm_compute. done. Qed.

(** * Further properties of the handlers *)

(** ** Pages of the slicing handlers, at work *)

Lemma list_commits_page_witness :
  ∃ payload,
    is_page (raw_data <$> elements three) payload 2 1 ∧
    (GitRepo.list_commits stub
       (GitRepo.mkListCommitsParams "acme" "widgets" (Some "main") (Some 1) (Some 2)) []).1
    = Ret (Content (Dumps (JList payload))).
Proof.
  eapply (list_commits_page stub 2 1);
    [lia | lia | reflexivity | reflexivity | simpl; lia].
Defined.

Lemma list_branches_page_witness :
  ∃ payload,
    is_page (raw_data <$> elements three) payload 3 1 ∧
    (GitRepo.list_branches stub
       (GitRepo.mkListBranchesParams "acme" "widgets" (Some 1) (Some 3)) []).1
    = Ret (Content (Dumps (JList payload))).
Proof.
  eapply (list_branches_page stub 3 1);
    [lia | lia | reflexivity | reflexivity | simpl; lia].
Defined.

(** A search upstream with two repositories, two code hits and two users. *)
Lemma search_repositories_page_witness :
  let found :=
    mkPaginatedList
      [mkRepoItem "acme/widgets" "https://github.com/acme/widgets" None 7 (Some "Python");
       mkRepoItem "acme/gadgets" "https://github.com/acme/gadgets" (Some "gadgets") 3 None]
      2 in
  let gh :=
    mkGithub (answer_repo stub) (answer_user stub) (answer_object stub)
      (answer_objects stub) (answer_write stub) (fun _ _ => Ret found)
      (answer_codes stub) (answer_users stub) in
  ∃ payload,
    is_page (SearchRepo.repo_dict <$> elements found) payload 2 1 ∧
    (SearchRepo.search_repositories gh
       (SearchRepo.mkSearchReposParams "acme" (Some 1) (Some 2)) []).1
    = Ret (Search 2 "repositories" payload).
Proof.
  intros found gh.
  apply (search_repositories_page gh 2 1); [lia | lia | reflexivity | simpl; lia].
Defined.

Lemma search_code_page_witness :
  let found :=
    mkPaginatedList
      [mkCodeItem "a.py" "src/a.py" "acme/widgets" "https://github.com/acme/widgets/a.py";
       mkCodeItem "b.py" "src/b.py" "acme/widgets" "https://github.com/acme/widgets/b.py"]
      2 in
  let gh :=
    mkGithub (answer_repo stub) (answer_user stub) (answer_object stub)
      (answer_objects stub) (answer_write stub) (answer_repos stub)
      (fun _ _ => Ret found) (answer_users stub) in
  ∃ payload,
    is_page (SearchRepo.code_dict <$> elements found) payload 1 1 ∧
    (SearchRepo.search_code gh
       (SearchRepo.mkSearchCodeParams "FastMCP" None None (Some 1) (Some 1)) []).1
    = Ret (Search 2 "code_results" payload).
Proof.
  intros found gh.
  apply (search_code_page gh 1 1); [lia | lia | reflexivity | simpl; lia].
Defined.

Lemma search_users_page_witness :
  let found :=
    mkPaginatedList
      [mkUserItem "ada" "https://github.com/ada" "User" (JInt 1);
       mkUserItem "acme" "https://github.com/acme" "Organization" (JInt 1)]
      2 in
  let gh :=
    mkGithub (answer_repo stub) (answer_user stub) (answer_object stub)
      (answer_objects stub) (answer_write stub) (answer_repos stub)
      (answer_codes stub) (fun _ _ => Ret found) in
  ∃ payload,
    is_page (SearchRepo.user_dict <$> elements found) payload 2 1 ∧
    (SearchRepo.search_users gh
       (SearchRepo.mkSearchUsersParams "a" None None (Some 1) (Some 2)) []).1
    = Ret (Search 2 "users" payload).
Proof.
  intros found gh.
  apply (search_users_page gh 2 1); [lia | lia | reflexivity | simpl; lia].
Defined.

(** ** Beyond the last page *)

(** The page of the spec that starts at or after the end of the upstream
    items is the empty page. *)
Lemma is_page_beyond {A} (upstream out : list A) (page per_page : Z) :
  1 ≤ page → 1 ≤ per_page →
  Z.of_nat (length upstream) ≤ (page - 1) * per_page →
  is_page upstream out page per_page → out = [].
Proof.
  intros Hpage Hper Hlen [_ Hat].
  destruct out as [|x out]; [done|].
  specialize (Hat 0%nat). simpl in Hat.
  case_bool_decide; [|done].
  symmetry in Hat. apply lookup_lt_Some in Hat. lia.
Qed.

(** X6.  A page beyond the data is an error, not the empty page: the slice of
    the fresh list is looked up at its first index, which the upstream does
    not have, and the library raises IndexError.  list_commits renders it
    as its error text, search_repositories, which has no handler, lets it
    escape.  The first page of an empty listing is such a page. *)
Theorem beyond_last_page_is_index_error (gh : Github) (page per_page : Z)
    (history : list call) :
  1 ≤ per_page ≤ 100 →
  (∀ owner repo_name sha repo commits,
     answer_repo gh history (Get_repo (owner +:+ "/" +:+ repo_name)) = Ret repo →
     answer_objects gh (history ++ [Get_repo (owner +:+ "/" +:+ repo_name)])
       (Repo_get_commits (repo_full_name repo) sha) = Ret commits →
     Z.of_nat (length (elements commits)) ≤ (page - 1) * per_page →
     (GitRepo.list_commits gh
        (GitRepo.mkListCommitsParams owner repo_name sha (Some per_page) (Some page))
        history).1
     = Ret (Content (Str "Error: list index out of range")))
  ∧ (∀ q result,
       answer_repos gh history (Search_repositories q) = Ret result →
       Z.of_nat (length (elements result)) ≤ (page - 1) * per_page →
       (SearchRepo.search_repositories gh
          (SearchRepo.mkSearchReposParams q (Some per_page) (Some page)) history).1
       = Raise (IndexError "list index out of range")).
Proof.
  intros Hper. split.
  - intros owner repo_name sha repo commits Hrepo Hcommits Hlen.
    pose proof (getslice_beyond commits page per_page ltac:(lia) Hlen) as Hslice.
    unfold GitRepo.list_commits. run_handler.
    rewrite Hrepo. simpl. rewrite Hcommits. simpl. by rewrite Hslice.
  - intros q result Hresult Hlen.
    pose proof (getslice_beyond result page per_page ltac:(lia) Hlen) as Hslice.
    unfold SearchRepo.search_repositories. run_handler.
    rewrite Hresult. simpl. by rewrite Hslice.
Qed.

(** Three commits upstream, the third page of two. *)
Lemma beyond_last_page_is_index_error_witness :
  (GitRepo.list_commits stub
     (GitRepo.mkListCommitsParams "acme" "widgets" (Some "main") (Some 2) (Some 3)) []).1
  = Ret (Content (Str "Error: list index out of range")).
Proof.
  apply (proj1 (beyond_last_page_is_index_error stub 3 2 [] ltac:(lia))
           "acme" "widgets" (Some "main") widgets three);
    [reflexivity | reflexivity | simpl; lia].
Defined.

(** ** What the searches and the pull listing do not read *)

(** X9.  search_users accepts sort and order and forwards neither: requests that
    agree on q, page and per_page make the same call and give the same
    result. *)
Theorem search_users_ignores_sort_and_order (g : Github)
    (p1 p2 : SearchRepo.SearchUsersParams) (history : list call) :
  SearchRepo.su_q p1 = SearchRepo.su_q p2 →
  SearchRepo.su_page p1 = SearchRepo.su_page p2 →
  SearchRepo.su_per_page p1 = SearchRepo.su_per_page p2 →
  SearchRepo.search_users g p1 history = SearchRepo.search_users g p2 history
  ∧ made (SearchRepo.search_users g p1) history = [Search_users (SearchRepo.su_q p2)].
Proof.
  intros Hq Hpage Hper. split.
  - unfold SearchRepo.search_users. by rewrite Hq, Hpage, Hper.
  - rewrite <- Hq. apply made_app. unfold SearchRepo.search_users. first_call.
Qed.

Lemma search_users_ignores_sort_and_order_witness :
  SearchRepo.search_users stub
    (SearchRepo.mkSearchUsersParams "ada" (Some "followers") (Some "desc") (Some 30) (Some 1))
    []
  = SearchRepo.search_users stub
      (SearchRepo.mkSearchUsersParams "ada" None None (Some 30) (Some 1)) [].
Proof.
  apply search_users_ignores_sort_and_order; reflexivity.
Defined.

(** X10.  list_pull_requests reads owner, repo, state, sort and direction only:
    head, base, page and per_page change neither the calls nor the result;
    and whatever the upstream answers, a pull listing it forwards carries
    the value of each given field and the default of each omitted one. *)
Theorem list_pull_requests_reads (g : Github)
    (d1 d2 : PullRequests.ListPullRequestsInput) (history : list call) :
  PullRequests.lp_owner d1 = PullRequests.lp_owner d2 →
  PullRequests.lp_repo d1 = PullRequests.lp_repo d2 →
  PullRequests.lp_state d1 = PullRequests.lp_state d2 →
  PullRequests.lp_sort d1 = PullRequests.lp_sort d2 →
  PullRequests.lp_direction d1 = PullRequests.lp_direction d2 →
  PullRequests.list_pull_requests g d1 history = PullRequests.list_pull_requests g d2 history
  ∧ ∀ repo state sort direction,
      Repo_get_pulls repo state sort direction
        ∈ made (PullRequests.list_pull_requests g d1) history →
      state = from_option PullRequests.state_value "open" (PullRequests.lp_state d2)
      ∧ sort = from_option PullRequests.sort_value "created" (PullRequests.lp_sort d2)
      ∧ direction
        = from_option PullRequests.direction_value "desc" (PullRequests.lp_direction d2).
Proof.
  intros Howner Hrepo Hstate Hsort Hdirection. split.
  - unfold PullRequests.list_pull_requests.
    by rewrite Howner, Hrepo, Hstate, Hsort, Hdirection.
  - rewrite <- Hstate, <- Hsort, <- Hdirection.
    unfold made, PullRequests.list_pull_requests, PullRequests.get_repo. run_handler.
    repeat (match goal with
            | |- context [match ?x with _ => _ end] =>
                lazymatch x with
                | context [match _ with _ => _ end] => fail
                | PullRequests.lp_state _ => fail
                | PullRequests.lp_sort _ => fail
                | PullRequests.lp_direction _ => fail
                | _ => destruct x; simpl
                end
            end);
    rewrite <- ?app_assoc, ?drop_app_length; simpl;
    intros ? ? ? ? Hin; apply list_elem_of_In in Hin; simpl in Hin;
    intuition (try congruence);
    match goal with H : Repo_get_pulls _ _ _ _ = _ |- _ => injection H as <- <- <- <- end;
    by destruct (PullRequests.lp_state d1), (PullRequests.lp_sort d1),
         (PullRequests.lp_direction d1).
Qed.

Lemma list_pull_requests_reads_witness :
  PullRequests.list_pull_requests stub
    (PullRequests.mkListPullRequestsInput "acme" "widgets" (Some PullRequests.closed)
       (Some "acme:feature") (Some "main") None (Some PullRequests.asc) (Some 5) (Some 2)) []
  = PullRequests.list_pull_requests stub
      (PullRequests.mkListPullRequestsInput "acme" "widgets" (Some PullRequests.closed)
         None None None (Some PullRequests.asc) (Some 30) (Some 1)) [].
Proof.
  apply list_pull_requests_reads; reflexivity.
Defined.

(** ** Pull requests: the merge method, the repository that is not found *)

(** X11.  merge_pull_request merges with the method it is given and with merge
    when none is given, and forwards the commit title and message as they
    are: on a repository and a pull request that resolve, the run is the two
    lookups of the helper, the pull lookup and that merge call. *)
Theorem merge_pull_request_method (g : Github) (data : PullRequests.MergePullRequestInput)
    (history : list call) (user : NamedUser) (repo : Repository) (pr : GithubObject) :
  let c1 := Get_user (Some (PullRequests.mp_owner data)) in
  let c2 := User_get_repo (user_login user) (PullRequests.mp_repo data) in
  let c3 := Repo_get_pull (repo_full_name repo) (PullRequests.mp_pull_number data) in
  let method :=
    match PullRequests.mp_merge_method data with
    | Some m => PullRequests.merge_method_value m
    | None => "merge"
    end in
  answer_user g history c1 = Ret user →
  answer_repo g (history ++ [c1]) c2 = Ret repo →
  answer_object g ((history ++ [c1]) ++ [c2]) c3 = Ret pr →
  made (PullRequests.merge_pull_request g data) history
  = [c1; c2; c3;
     Pull_merge (repo_full_name repo) (PullRequests.mp_pull_number data)
       (PullRequests.mp_commit_title data) (PullRequests.mp_commit_message data) method].
Proof.
  intros c1 c2 c3 method Huser Hrepo Hpr. apply made_app.
  unfold PullRequests.merge_pull_request, PullRequests.get_repo. run_handler.
  subst c1 c2 c3. rewrite Huser. simpl. rewrite Hrepo. simpl. rewrite Hpr. simpl.
  clear Hpr.
  destruct (answer_object g _ _) as [merged|e]; simpl;
    [|destruct (is_GithubException e); simpl];
    rewrite <- !app_assoc; simpl; subst method;
    by destruct (PullRequests.mp_merge_method data).
Qed.

Lemma merge_pull_request_method_witness :
  made (PullRequests.merge_pull_request stub
          (PullRequests.mkMergePullRequestInput "acme" "widgets" 7 (Some "Release") None None))
    []
  = [Get_user (Some "acme"); User_get_repo "acme" "widgets";
     Repo_get_pull "acme/widgets" 7;
     Pull_merge "acme/widgets" 7 (Some "Release") None "merge"].
Proof.
  apply (merge_pull_request_method stub
           (PullRequests.mkMergePullRequestInput "acme" "widgets" 7 (Some "Release") None None)
           [] (mkNamedUser "acme") widgets (item 42));
    reflexivity.
Defined.

(** X12.  When the helper get_repo finds no repository, every pull-request
    handler answers Repository not found and makes no call of its own. *)
Theorem repository_not_found (g : Github) (owner repo_name : string)
    (history after : list call) :
  PullRequests.get_repo g owner repo_name history = (Ret None, after) →
  (∀ number,
     PullRequests.get_pull_request g
       (PullRequests.mkGetPullRequestInput owner repo_name number) history
     = (Ret PullRequests.not_found, after))
  ∧ (∀ state head base sort direction per_page page,
       PullRequests.list_pull_requests g
         (PullRequests.mkListPullRequestsInput owner repo_name state head base sort
            direction per_page page) history
       = (Ret PullRequests.not_found, after))
  ∧ (∀ number title message method,
       PullRequests.merge_pull_request g
         (PullRequests.mkMergePullRequestInput owner repo_name number title message method)
         history
       = (Ret PullRequests.not_found, after))
  ∧ (∀ number per_page page,
       PullRequests.get_pull_request_files g
         (PullRequests.mkGetPullRequestFilesInput owner repo_name number per_page page)
         history
       = (Ret PullRequests.not_found, after)).
Proof.
  intros Hnone. repeat split; intros;
    unfold PullRequests.get_pull_request, PullRequests.list_pull_requests,
      PullRequests.merge_pull_request, PullRequests.get_pull_request_files;
    unfold mbind, M_bind, bind; simpl; by rewrite Hnone.
Qed.

Lemma repository_not_found_witness :
  PullRequests.merge_pull_request (flaky unknown_object)
    (PullRequests.mkMergePullRequestInput "acme" "widgets" 7 None None None) []
  = (Ret (Content (Str "Repository not found.")), [Get_user (Some "acme")]).
Proof.
  apply (proj1 (proj2 (proj2 (repository_not_found (flaky unknown_object)
                                "acme" "widgets" [] [Get_user (Some "acme")] eq_refl)))).
Defined.

(** The helper finds no repository exactly when one of its two lookups
    raises a GithubException; it finds one when both answer. *)
Theorem get_repo_outcomes (g : Github) (owner repo_name : string) (history : list call) :
  let c1 := Get_user (Some owner) in
  match answer_user g history c1 with
  | Raise e =>
      PullRequests.get_repo g owner repo_name history
      = ((if is_GithubException e then Ret None else Raise e), history ++ [c1])
  | Ret user =>
      let c2 := User_get_repo (user_login user) repo_name in
      match answer_repo g (history ++ [c1]) c2 with
      | Raise e =>
          PullRequests.get_repo g owner repo_name history
          = ((if is_GithubException e then Ret None else Raise e), history ++ [c1; c2])
      | Ret repo =>
          PullRequests.get_repo g owner repo_name history
          = (Ret (Some repo), history ++ [c1; c2])
      end
  end.
Proof.
  intros c1. unfold PullRequests.get_repo. run_handler. subst c1.
  destruct (answer_user g history _) as [user|e]; simpl.
  - destruct (answer_repo g _ _) as [repo|e]; simpl; rewrite <- app_assoc; simpl;
      [done | by destruct (is_GithubException e)].
  - by destruct (is_GithubException e).
Qed.

Lemma get_pull_request_lets_others_through_witness :
  (PullRequests.get_pull_request
     (mkGithub (answer_repo stub) (answer_user stub)
        (fun _ _ => Raise unknown_object)
        (answer_objects stub) (answer_write stub) (answer_repos stub)
        (answer_codes stub) (answer_users stub))
     (PullRequests.mkGetPullRequestInput "acme" "widgets" 7) []).1
  = Ret (Content (Str "Error: 404 Not Found")).
Proof.
  apply (get_pull_request_lets_others_through
           (mkGithub (answer_repo stub) (answer_user stub)
              (fun _ _ => Raise unknown_object)
              (answer_objects stub) (answer_write stub) (answer_repos stub)
              (answer_codes stub) (answer_users stub))
           (PullRequests.mkGetPullRequestInput "acme" "widgets" 7) []
           (mkNamedUser "acme") widgets unknown_object);
    reflexivity.
Defined.

(** ** fork_repository and create_issue: what is forwarded *)

(** X14.  fork_repository forks into the organization it is given when that is a
    non-empty string, and into the account of the caller when the field is
    absent or empty. *)
Theorem fork_repository_target (gh : Github) (owner repo_name : string)
    (organization : option string) (history : list call) (repo : Repository) :
  let lookup := Get_repo (owner +:+ "/" +:+ repo_name) in
  answer_repo gh history lookup = Ret repo →
  made (GitRepo.fork_repository gh
          (GitRepo.mkForkRepositoryParams owner repo_name organization)) history
  = [lookup;
     Repo_create_fork (repo_full_name repo)
       (match organization with
        | Some org => if String.eqb org "" then None else Some org
        | None => None
        end)].
Proof.
  intros lookup Hrepo. apply made_app.
  unfold GitRepo.fork_repository. run_handler. subst lookup. rewrite Hrepo. simpl.
  clear Hrepo.
  destruct organization as [org|]; simpl;
    [destruct (String.eqb org ""); simpl|];
    destruct (answer_repo gh _ _); simpl; by rewrite <- app_assoc.
Qed.

Lemma fork_repository_target_witness :
  made (GitRepo.fork_repository stub
          (GitRepo.mkForkRepositoryParams "acme" "widgets" (Some ""))) []
  = [Get_repo "acme/widgets"; Repo_create_fork "acme/widgets" None].
Proof.
  apply (fork_repository_target stub "acme" "widgets" (Some "") [] widgets).
  reflexivity.
Defined.

(** What the None filter keeps: the pairs whose value is set, with that
    value. *)
Lemma elem_of_drop_none (d : list (string * option kwarg)) (k : string) (v : kwarg) :
  (k, v) ∈ GitIssues.drop_none d ↔ (k, Some v) ∈ d.
Proof.
  unfold GitIssues.drop_none. rewrite list_elem_of_omap. split.
  - intros ([k' [v'|]] & Hin & Heq); simpl in Heq; [|done].
    by injection Heq as -> ->.
  - intros Hin. by exists (k, Some v).
Qed.

(** X15.  create_issue forwards the title and exactly the optional fields that
    are set, each with its value; a field left at None is not passed at all.
    The issue it gets back is returned as the library object. *)
Theorem create_issue_forwards_set_fields (g : Github) (params : GitIssues.CreateIssueParams)
    (history : list call) (repo : Repository) :
  let lookup :=
    Get_repo (GitIssues.ci_owner params +:+ "/" +:+ GitIssues.ci_repo params) in
  answer_repo g history lookup = Ret repo →
  ∃ kwargs,
    made (GitIssues.create_issue g params) history
    = [lookup; Repo_create_issue (repo_full_name repo) kwargs]
    ∧ (∀ k v, (k, v) ∈ kwargs ↔
         (k = "title" ∧ v = KStr (GitIssues.ci_title params))
         ∨ (k = "body" ∧ KStr <$> GitIssues.ci_body params = Some v)
         ∨ (k = "assignees" ∧ KList <$> GitIssues.ci_assignees params = Some v)
         ∨ (k = "labels" ∧ KList <$> GitIssues.ci_labels params = Some v)
         ∨ (k = "milestone" ∧ KInt <$> GitIssues.ci_milestone params = Some v))
    ∧ (∀ issue,
         answer_object g (history ++ [lookup]) (Repo_create_issue (repo_full_name repo) kwargs)
         = Ret issue →
         (GitIssues.create_issue g params history).1 = Ret (Handle "Issue" [raw_data issue])).
Proof.
  intros lookup Hrepo.
  exists (GitIssues.drop_none
            [ ("title", Some (KStr (GitIssues.ci_title params)));
              ("body", KStr <$> GitIssues.ci_body params);
              ("assignees", KList <$> GitIssues.ci_assignees params);
              ("labels", KList <$> GitIssues.ci_labels params);
              ("milestone", KInt <$> GitIssues.ci_milestone params) ]).
  split; [|split].
  - apply made_app. unfold GitIssues.create_issue. run_handler.
    subst lookup. rewrite Hrepo. simpl.
    destruct (answer_object g _ _); simpl; by rewrite <- app_assoc.
  - intros k v. rewrite elem_of_drop_none.
    rewrite !elem_of_cons, elem_of_nil. split.
    + intros [H|[H|[H|[H|[H|[]]]]]]; injection H as -> Hv; eauto 10.
    + intros [[-> ->]|[[-> <-]|[[-> <-]|[[-> <-]|[-> <-]]]]]; eauto 10.
  - intros issue Hissue. unfold GitIssues.create_issue. run_handler.
    subst lookup. rewrite Hrepo. simpl. simpl in Hissue. by rewrite Hissue.
Qed.

Lemma create_issue_forwards_set_fields_witness :
  ∃ kwargs,
    made (GitIssues.create_issue stub
            (GitIssues.mkCreateIssueParams "acme" "widgets" "Crash on start" None None
               (Some ["bug"]) None)) []
    = [Get_repo "acme/widgets"; Repo_create_issue "acme/widgets" kwargs]
    ∧ kwargs = [("title", KStr "Crash on start"); ("labels", KList ["bug"])].
Proof.
  destruct (create_issue_forwards_set_fields stub
              (GitIssues.mkCreateIssueParams "acme" "widgets" "Crash on start" None None
                 (Some ["bug"]) None) [] widgets eq_refl) as (kwargs & Hmade & _).
  exists kwargs. split; [exact Hmade|].
  vm_compute in Hmade. by injection Hmade as ->.
Defined.

(** ** Issues: since, the searched page, the first comments *)

(** X16.  list_issues with a since the conversion rejects raises the
    ValueError of the conversion, with the message the conversion gives it,
    after the repository lookup, and never asks for the issues. *)
Theorem list_issues_malformed_since (g : Github) (iso_error : string → option string)
    (params : GitIssues.ListIssuesParams) (history : list call) (repo : Repository)
    (since message : string) :
  let lookup :=
    Get_repo (GitIssues.li_owner params +:+ "/" +:+ GitIssues.li_repo params) in
  GitIssues.li_since params = Some since →
  iso_error since = Some message →
  answer_repo g history lookup = Ret repo →
  GitIssues.list_issues g iso_error params history
  = (Raise (ValueError message), history ++ [lookup]).
Proof.
  intros lookup Hsince Hiso Hrepo. unfold GitIssues.list_issues. run_handler.
  subst lookup. rewrite Hrepo. simpl. rewrite Hsince. simpl. by rewrite Hiso.
Qed.

(** A date whose month is 13, with the message of Python 3.11. *)
Lemma list_issues_malformed_since_witness :
  let iso_error := fun s =>
    if String.eqb s "2024-13-01" then Some "month must be in 1..12" else None in
  GitIssues.list_issues stub iso_error
    (GitIssues.mkListIssuesParams "acme" "widgets" (Some "open") None None None
       (Some "2024-13-01") (Some 30) (Some 1)) []
  = (Raise (ValueError "month must be in 1..12"), [Get_repo "acme/widgets"]).
Proof.
  intros iso_error.
  apply (list_issues_malformed_since stub iso_error
           (GitIssues.mkListIssuesParams "acme" "widgets" (Some "open") None None None
              (Some "2024-13-01") (Some 30) (Some 1)) [] widgets "2024-13-01"
           "month must be in 1..12");
    reflexivity.
Defined.

(** X17.  list_issues with a well-formed since asks for the issues once, with
    since as a datetime and exactly the other filters that are set; it takes
    no page of the answer: every issue the upstream yields comes back,
    whatever page and per_page, in the library object. *)
Theorem list_issues_forwards_filters (g : Github) (iso_error : string → option string)
    (params : GitIssues.ListIssuesParams) (history : list call) (repo : Repository)
    (since : string) :
  let lookup :=
    Get_repo (GitIssues.li_owner params +:+ "/" +:+ GitIssues.li_repo params) in
  GitIssues.li_since params = Some since →
  iso_error since = None →
  answer_repo g history lookup = Ret repo →
  ∃ kwargs,
    made (GitIssues.list_issues g iso_error params) history
    = [lookup; Repo_get_issues (repo_full_name repo) kwargs]
    ∧ (∀ k v, (k, v) ∈ kwargs ↔
         (k = "state" ∧ KStr <$> GitIssues.li_state params = Some v)
         ∨ (k = "labels" ∧ KList <$> GitIssues.li_labels params = Some v)
         ∨ (k = "sort" ∧ KStr <$> GitIssues.li_sort params = Some v)
         ∨ (k = "direction" ∧ KStr <$> GitIssues.li_direction params = Some v)
         ∨ (k = "since" ∧ v = KDatetime since))
    ∧ (∀ issues,
         answer_objects g (history ++ [lookup]) (Repo_get_issues (repo_full_name repo) kwargs)
         = Ret issues →
         (GitIssues.list_issues g iso_error params history).1
         = Ret (Handle "PaginatedList" (raw_data <$> elements issues))).
Proof.
  intros lookup Hsince Hiso Hrepo.
  exists (GitIssues.drop_none
            [ ("state", KStr <$> GitIssues.li_state params);
              ("labels", KList <$> GitIssues.li_labels params);
              ("sort", KStr <$> GitIssues.li_sort params);
              ("direction", KStr <$> GitIssues.li_direction params);
              ("since", Some (KDatetime since)) ]).
  split; [|split].
  - apply made_app. unfold GitIssues.list_issues. run_handler.
    subst lookup. rewrite Hrepo. simpl. rewrite Hsince. simpl. rewrite Hiso. simpl.
    destruct (answer_objects g _ _); simpl; by rewrite <- app_assoc.
  - intros k v. rewrite elem_of_drop_none.
    rewrite !elem_of_cons, elem_of_nil. split.
    + intros [H|[H|[H|[H|[H|[]]]]]]; injection H as -> Hv; eauto 10.
    + intros [[-> <-]|[[-> <-]|[[-> <-]|[[-> <-]|[-> ->]]]]]; eauto 10.
  - intros issues Hissues. unfold GitIssues.list_issues. run_handler.
    subst lookup. rewrite Hrepo. simpl. rewrite Hsince. simpl. rewrite Hiso. simpl.
    simpl in Hissues. by rewrite Hissues.
Qed.

Lemma list_issues_forwards_filters_witness :
  ∃ kwargs,
    made (GitIssues.list_issues stub (fun _ => None)
            (GitIssues.mkListIssuesParams "acme" "widgets" (Some "open") None None None
               (Some "2024-01-01T00:00:00") (Some 1) (Some 2))) []
    = [Get_repo "acme/widgets"; Repo_get_issues "acme/widgets" kwargs]
    ∧ (GitIssues.list_issues stub (fun _ => None)
         (GitIssues.mkListIssuesParams "acme" "widgets" (Some "open") None None None
            (Some "2024-01-01T00:00:00") (Some 1) (Some 2)) []).1
      = Ret (Handle "PaginatedList" [JInt 1; JInt 2; JInt 3]).
Proof.
  destruct (list_issues_forwards_filters stub (fun _ => None)
              (GitIssues.mkListIssuesParams "acme" "widgets" (Some "open") None None None
                 (Some "2024-01-01T00:00:00") (Some 1) (Some 2)) [] widgets
              "2024-01-01T00:00:00" eq_refl eq_refl eq_refl)
    as (kwargs & Hmade & _ & Hresult).
  exists kwargs. split; [exact Hmade|]. exact (Hresult three eq_refl).
Defined.

(** X18.  search_issues forwards q, sort and order in one call and answers the
    upstream's own page number [page], whose size is the client's 30
    whatever per_page says. *)
Theorem search_issues_page_of_thirty (g : Github) (q : string) (sort order : option string)
    (per_page : option Z) (page : Z) (history : list call)
    (results : PaginatedList GithubObject) :
  1 ≤ page →
  answer_objects g history (Search_issues q sort order) = Ret results →
  ∃ payload,
    GitIssues.search_issues g (GitIssues.mkSearchParams q sort order per_page (Some page))
      history
    = (Ret (Items payload), history ++ [Search_issues q sort order])
    ∧ is_page (raw_data <$> elements results) payload page 30.
Proof.
  intros Hpage Hresults. eexists. split.
  - unfold GitIssues.search_issues. run_handler. rewrite Hresults. reflexivity.
  - apply is_page_fmap. unfold get_page, client_per_page.
    replace (Z.to_nat (page - 1) * 30)%nat with (Z.to_nat ((page - 1) * 30)) by lia.
    by apply (take_drop_is_page _ page 30).
Qed.

Lemma search_issues_page_of_thirty_witness :
  ∃ payload,
    GitIssues.search_issues stub
      (GitIssues.mkSearchParams "is:open" (Some "created") (Some "desc") (Some 2) (Some 1)) []
    = (Ret (Items payload), [Search_issues "is:open" (Some "created") (Some "desc")])
    ∧ is_page (raw_data <$> elements three) payload 1 30.
Proof.
  apply (search_issues_page_of_thirty stub "is:open" (Some "created") (Some "desc")
           (Some 2) 1 [] three); [lia | reflexivity].
Defined.

(** X19.  get_issue_comments makes its three calls and, on an issue that has
    comments, answers the first per_page of them, in upstream order,
    whatever the page.  On an issue without comments the slice of the fresh
    list is looked up at index 0, which the upstream does not have: the
    IndexError of the library leaves the handler, which has no handler of
    its own. *)
Theorem get_issue_comments_first_page (g : Github) (owner repo_name : string) (number : Z)
    (page : option Z) (per_page : Z) (history : list call)
    (repo : Repository) (issue : GithubObject) (comments : PaginatedList GithubObject) :
  let c1 := Get_repo (owner +:+ "/" +:+ repo_name) in
  let c2 := Repo_get_issue (repo_full_name repo) number in
  let c3 := Issue_get_comments (repo_full_name repo) number in
  1 ≤ per_page →
  answer_repo g history c1 = Ret repo →
  answer_object g (history ++ [c1]) c2 = Ret issue →
  answer_objects g ((history ++ [c1]) ++ [c2]) c3 = Ret comments →
  let run :=
    GitIssues.get_issue_comments g
      (GitIssues.mkCommentsListParams owner repo_name number page (Some per_page)) history in
  run.2 = ((history ++ [c1]) ++ [c2]) ++ [c3]
  ∧ (elements comments ≠ [] →
     ∃ payload,
       run.1 = Ret (Items payload)
       ∧ is_page (raw_data <$> elements comments) payload 1 per_page)
  ∧ (elements comments = [] → run.1 = Raise (IndexError "list index out of range")).
Proof.
  intros c1 c2 c3 Hper Hrepo Hissue Hcomments run. subst run.
  unfold GitIssues.get_issue_comments. run_handler.
  subst c1 c2 c3. rewrite Hrepo. simpl. rewrite Hissue. simpl. rewrite Hcomments. simpl.
  split; [by destruct (getslice comments 0 per_page)|]. split.
  - intros Hsome. rewrite (getslice_first comments per_page Hsome). simpl.
    eexists. split; [done|]. apply is_page_fmap.
    by apply (take_drop_is_page (elements comments) 1 per_page).
  - intros Hnone.
    pose proof (getslice_beyond comments 1 per_page Hper) as Hslice.
    replace ((1 - 1) * per_page) with 0 in Hslice by lia.
    replace (0 + per_page) with per_page in Hslice by lia.
    rewrite Hslice; [done|]. rewrite Hnone. simpl. lia.
Qed.

Lemma get_issue_comments_first_page_witness :
  ∃ payload,
    (GitIssues.get_issue_comments stub
       (GitIssues.mkCommentsListParams "acme" "widgets" 7 (Some 3) (Some 2)) []).1
    = Ret (Items payload)
    ∧ is_page (raw_data <$> elements three) payload 1 2.
Proof.
  apply (get_issue_comments_first_page stub "acme" "widgets" 7 (Some 3) 2 []
           widgets (item 42) three ltac:(lia) eq_refl eq_refl eq_refl).
  discriminate.
Defined.

Lemma get_issue_propagates_witness :
  GitIssues.get_issue (flaky rate_limited) (GitIssues.mkIssueParams "acme" "widgets" 42) []
  = (Raise rate_limited, [Get_repo "acme/widgets"]).
Proof.
  apply (proj1 (get_issue_propagates (flaky rate_limited)
                  (GitIssues.mkIssueParams "acme" "widgets" 42) [] rate_limited)).
  reflexivity.
Defined.

(** ** File writes: the write is made before its result is rendered *)

(** X21.  create_or_update_file serialises what the write answers after the write
    has been made: when the answer is no JSON value (the library answers
    with objects of its own), the handler returns the TypeError of
    json.dumps as an error text although the file has been written; when it
    is one, its serialisation. *)
Theorem write_made_before_rendering (gh : Github)
    (params : GitRepo.CreateOrUpdateFileParams) (history : list call) (repo : Repository)
    (answer : pyval) :
  let lookup :=
    Get_repo (GitRepo.cf_owner params +:+ "/" +:+ GitRepo.cf_repo params) in
  let write :=
    if truthy (GitRepo.cf_sha params)
    then Repo_update_file (repo_full_name repo) (GitRepo.cf_path params)
           (GitRepo.cf_message params) (GitRepo.cf_content params)
           (default "" (GitRepo.cf_sha params)) (GitRepo.cf_branch params)
    else Repo_create_file (repo_full_name repo) (GitRepo.cf_path params)
           (GitRepo.cf_message params) (GitRepo.cf_content params)
           (GitRepo.cf_branch params) in
  answer_repo gh history lookup = Ret repo →
  answer_write gh (history ++ [lookup]) write = Ret answer →
  GitRepo.create_or_update_file gh params history
  = (Ret (match answer with
          | PJson v => Content (Dumps v)
          | PObject cls =>
              Content (Str ("Error: Object of type " +:+ cls +:+ " is not JSON serializable"))
          end),
     (history ++ [lookup]) ++ [write]).
Proof.
  intros lookup write Hrepo Hwrite.
  unfold GitRepo.create_or_update_file. run_handler.
  subst lookup write. rewrite Hrepo. simpl.
  destruct (truthy (GitRepo.cf_sha params)); simpl; rewrite Hwrite; by destruct answer.
Qed.

Lemma write_made_before_rendering_witness :
  GitRepo.create_or_update_file stub
    (GitRepo.mkCreateOrUpdateFileParams "acme" "widgets" "README.md" "hello" "add readme"
       "main" None) []
  = (Ret (Content (Str "Error: Object of type ContentFile is not JSON serializable")),
     [Get_repo "acme/widgets";
      Repo_create_file "acme/widgets" "README.md" "add readme" "hello" "main"]).
Proof.
  apply (write_made_before_rendering stub
           (GitRepo.mkCreateOrUpdateFileParams "acme" "widgets" "README.md" "hello"
              "add readme" "main" None) [] widgets (PObject "ContentFile"));
    reflexivity.
Defined.

(** ** Windows below 1, at work *)

Lemma list_commits_invalid_window_witness :
  (GitRepo.list_commits stub
     (GitRepo.mkListCommitsParams "acme" "widgets" (Some "main") (Some 0) (Some 1)) []).1
  = Ret (Content (Dumps (JList []))).
Proof.
  eapply (proj1 (proj2 (list_commits_invalid_window stub 1 0 "acme" "widgets" (Some "main")
                          [] widgets three eq_refl eq_refl))).
  lia.
Defined.

Lemma search_repositories_invalid_window_witness :
  (SearchRepo.search_repositories stub
     (SearchRepo.mkSearchReposParams "mcp" (Some 30) (Some 0)) []).1
  = Raise (IndexError "list index out of range").
Proof.
  eapply (proj2 (proj2 (search_repositories_invalid_window stub 0 30 "mcp" []
                          (mkPaginatedList [] 0) eq_refl))); lia.
Defined.

(** ** commit_and_push: every run commits *)

(** One run on a repository that has the remote, in an environment in which
    nothing fails. *)
Lemma commit_and_push_run (fault : nat → option exn)
    (msg path remote_name branch url : string) (fl : list string) (r : repository)
    (ps : list push_record) (c : nat) (w : world) :
  (∀ n, fault n = None) →
  at_state path (mkWorkdir fl (Some r)) ps c w →
  url_of remote_name (remotes r) = Some url →
  let hist := history r ++ [mkCommit msg fl] in
  post (GitUtils.commit_and_push fault msg path remote_name branch) w (fun res w' =>
    res = Ret ()
    ∧ at_state path (mkWorkdir fl (Some (mkRepo fl hist (active_branch r) (remotes r))))
        (ps ++ [mkPush url (branch +:+ ":" +:+ branch) hist]) (c + 4) w').
Proof.
  intros Hok Hw Hurl hist. unfold GitUtils.commit_and_push.
  step step_Repo. step step_git_add_all. step step_index_commit.
  apply post_bind. unfold post at 1.
  erewrite read_remote_by_name by eauto. simpl.
  rewrite bool_decide_eq_true_2 by (apply url_of_elem; eauto). simpl.
  eapply post_mono; [eapply step_push; eauto|].
  intros res w' (-> & Hfs & Hps & Hc). split; [done|].
  repeat split; [done | done | lia].
Qed.

(** X22.  commit_and_push stages everything and commits at every run, with the
    message it is given, then pushes branch:branch to the remote: on a
    repository that has the remote, when no command fails, the run returns,
    the history has grown by exactly one commit whose tree is the files of
    the directory, and that history has been pushed to the remote's URL. *)
Theorem commit_and_push_commits_and_pushes (fault : nat → option exn)
    (msg path remote_name branch url : string) (fl : list string) (r : repository)
    (w : world) :
  (∀ n, fault n = None) →
  fs w !! path = Some (mkWorkdir fl (Some r)) →
  url_of remote_name (remotes r) = Some url →
  let run := GitUtils.commit_and_push fault msg path remote_name branch w in
  run.1 = Ret ()
  ∧ commits_at path run.2 = history r ++ [mkCommit msg fl]
  ∧ pushes run.2
    = pushes w ++ [mkPush url (branch +:+ ":" +:+ branch) (history r ++ [mkCommit msg fl])].
Proof.
  intros Hok Hfs Hurl run.
  destruct (commit_and_push_run fault msg path remote_name branch url fl r
              (pushes w) (clock w) w Hok) as (Hres & Hw'); [done | done |].
  fold run in Hres, Hw'. split; [done|].
  split; [by rewrite (at_state_commits _ _ _ _ _ _ Hw') | by destruct Hw' as (_ & ? & _)].
Qed.

(** A repository with the remote origin and one commit. *)
Lemma commit_and_push_commits_and_pushes_witness :
  let r := mkRepo ["README.md"] [mkCommit "Initial commit" ["README.md"]] "main"
             [("origin", widgets_url)] in
  let w := mkWorld {[ "/srv/widgets" := mkWorkdir ["README.md"; "app.py"] (Some r) ]} [] 0 in
  commits_at "/srv/widgets"
    (GitUtils.commit_and_push no_fault "add app" "/srv/widgets" "origin" "main" w).2
  = [mkCommit "Initial commit" ["README.md"]; mkCommit "add app" ["README.md"; "app.py"]].
Proof.
  intros r w.
  apply (proj1 (proj2 (commit_and_push_commits_and_pushes no_fault "add app" "/srv/widgets"
                         "origin" "main" widgets_url ["README.md"; "app.py"] r w
                         (fun _ => eq_refl) eq_refl eq_refl))).
Defined.

(** X23.  commit_and_push is not idempotent: two runs in succession, with nothing
    changed in between, leave two new commits with the same tree and push
    twice (push_to_github, on the contrary, commits on an empty history
    only). *)
Theorem commit_and_push_twice (fault : nat → option exn)
    (m1 m2 path remote_name branch url : string) (fl : list string) (r : repository)
    (w : world) :
  (∀ n, fault n = None) →
  fs w !! path = Some (mkWorkdir fl (Some r)) →
  url_of remote_name (remotes r) = Some url →
  let w1 := (GitUtils.commit_and_push fault m1 path remote_name branch w).2 in
  let w2 := (GitUtils.commit_and_push fault m2 path remote_name branch w1).2 in
  commits_at path w2 = history r ++ [mkCommit m1 fl; mkCommit m2 fl]
  ∧ length (pushes w2) = S (S (length (pushes w))).
Proof.
  intros Hok Hfs Hurl w1 w2.
  destruct (commit_and_push_run fault m1 path remote_name branch url fl r
              (pushes w) (clock w) w Hok) as (_ & H1); [done | done |].
  fold w1 in H1.
  destruct (commit_and_push_run fault m2 path remote_name branch url fl _ _ _ w1 Hok H1)
    as (_ & H2); [done|].
  fold w2 in H2. simpl in H2. split.
  - rewrite (at_state_commits _ _ _ _ _ _ H2). simpl. by rewrite <- app_assoc.
  - destruct H2 as (_ & -> & _). rewrite !length_app. simpl. lia.
Qed.

Lemma commit_and_push_twice_witness :
  let r := mkRepo ["README.md"] [mkCommit "Initial commit" ["README.md"]] "main"
             [("origin", widgets_url)] in
  let w := mkWorld {[ "/srv/widgets" := mkWorkdir ["README.md"] (Some r) ]} [] 0 in
  commits_at "/srv/widgets"
    (GitUtils.commit_and_push no_fault "again" "/srv/widgets" "origin" "main"
       (GitUtils.commit_and_push no_fault "again" "/srv/widgets" "origin" "main" w).2).2
  = [mkCommit "Initial commit" ["README.md"]; mkCommit "again" ["README.md"];
     mkCommit "again" ["README.md"]].
Proof.
  intros r w.
  apply (proj1 (commit_and_push_twice no_fault "again" "again" "/srv/widgets" "origin"
                  "main" widgets_url ["README.md"] r w (fun _ => eq_refl) eq_refl eq_refl)).
Defined.

(** X24.  Without the remote the commit is made all the same: the run ends in the
    ValueError of the remote lookup, the new commit stays and nothing is
    pushed. *)
Theorem commit_and_push_missing_remote (fault : nat → option exn)
    (msg path remote_name branch : string) (fl : list string) (r : repository)
    (w : world) :
  (∀ n, fault n = None) →
  fs w !! path = Some (mkWorkdir fl (Some r)) →
  remote_name ∉ (remotes r).*1 →
  let run := GitUtils.commit_and_push fault msg path remote_name branch w in
  run.1 = Raise (ValueError ("Remote named '" +:+ remote_name +:+ "' didn't exist"))
  ∧ commits_at path run.2 = history r ++ [mkCommit msg fl]
  ∧ pushes run.2 = pushes w.
Proof.
  intros Hok Hfs Hremote run.
  assert (Hw : at_state path (mkWorkdir fl (Some r)) (pushes w) (clock w) w) by done.
  assert (Hpost : post (GitUtils.commit_and_push fault msg path remote_name branch) w
            (fun res w' =>
               res = Raise (ValueError ("Remote named '" +:+ remote_name +:+ "' didn't exist"))
               ∧ commits_at path w' = history r ++ [mkCommit msg fl]
               ∧ pushes w' = pushes w)).
  { unfold GitUtils.commit_and_push.
    step step_Repo. step step_git_add_all. step step_index_commit.
    apply post_bind. unfold post at 1.
    erewrite read_remote_by_name by eauto. simpl.
    rewrite bool_decide_eq_false_2 by done. simpl.
    split; [done|].
    match goal with H : at_state _ _ _ _ ?w' |- _ =>
      rewrite (at_state_commits _ _ _ _ _ _ H); by destruct H as (_ & ? & _)
    end. }
  exact Hpost.
Qed.

Lemma commit_and_push_missing_remote_witness :
  let r := mkRepo [] [] "master" [] in
  let w := mkWorld {[ "/srv/widgets" := mkWorkdir ["README.md"] (Some r) ]} [] 0 in
  let run := GitUtils.commit_and_push no_fault "first" "/srv/widgets" "origin" "main" w in
  run.1 = Raise (ValueError "Remote named 'origin' didn't exist")
  ∧ commits_at "/srv/widgets" run.2 = [mkCommit "first" ["README.md"]]
  ∧ pushes run.2 = [].
Proof.
  intros r w.
  apply (commit_and_push_missing_remote no_fault "first" "/srv/widgets" "origin" "main"
           ["README.md"] r w (fun _ => eq_refl) eq_refl).
  vm_compute. by intros ?%elem_of_nil.
Defined.

(** X25.  commit_and_push never initialises a repository: in a directory that
    holds none the run ends in an exception (the InvalidGitRepositoryError
    of the library unless the environment fails first), and neither the
    directories nor the pushes have changed. *)
Theorem commit_and_push_needs_repository (fault : nat → option exn)
    (msg path remote_name branch : string) (fl : list string) (w : world) :
  fs w !! path = Some (mkWorkdir fl None) →
  let run := GitUtils.commit_and_push fault msg path remote_name branch w in
  (∃ e, run.1 = Raise e)
  ∧ (fault (clock w) = None → run.1 = Raise (InvalidGitRepositoryError path))
  ∧ fs run.2 = fs w
  ∧ pushes run.2 = pushes w.
Proof.
  intros Hfs run. subst run.
  unfold GitUtils.commit_and_push, mbind, M_bind, bind, Repo, on_repo, command.
  destruct (fault (clock w)) as [e|]; simpl.
  - repeat split; eauto. discriminate.
  - unfold repo_at. simpl. rewrite Hfs. simpl. repeat split; eauto.
Qed.

Lemma commit_and_push_needs_repository_witness :
  (GitUtils.commit_and_push no_fault "first" "/srv/widgets" "origin" "main" fresh).1
  = Raise (InvalidGitRepositoryError "/srv/widgets").
Proof.
  apply (proj1 (proj2 (commit_and_push_needs_repository no_fault "first" "/srv/widgets"
                         "origin" "main" ["README.md"] fresh eq_refl))).
  reflexivity.
Defined.

(** ** push_to_github: what a run without failure leaves *)

(** X26.  push_to_github on a path that does not exist says so and runs no git
    command: the machine is as it was. *)
Lemma push_to_github_missing_path (fault : nat → option exn)
    (params : GitRepo.GitPushLocalTOGIT) (w : world) :
  fs w !! GitRepo.repo_path params = None →
  GitRepo.push_to_github fault params w
  = (Ret (Content (Str "❌ Repo path does not exist.")), w).
Proof. apply push_run_no_path. Qed.

(** X27.  push_to_github on a directory that holds a repository, when no command
    fails: the run reports success; everything is staged; one commit is made
    if HEAD reached none and none otherwise; the branch carries the name
    asked for; a remote origin that was there is kept and pushed to,
    whatever remote_url says, and origin is created with remote_url only
    when there was none; what HEAD reaches is pushed with branch:branch. *)
Theorem push_to_github_on_repository (fault : nat → option exn)
    (params : GitRepo.GitPushLocalTOGIT) (fl : list string) (r : repository) (w : world) :
  (∀ n, fault n = None) →
  let path := GitRepo.repo_path params in
  let branch := or_default (Some (GitRepo.branch params)) "main" in
  let msg := or_default (GitRepo.commit_msg params) "Initial commit" in
  let hist := if bool_decide (history r = []) then [mkCommit msg fl] else history r in
  let rems :=
    if bool_decide ("origin" ∈ (remotes r).*1) then remotes r
    else remotes r ++ [("origin", GitRepo.remote_url params)] in
  let url := default (GitRepo.remote_url params) (url_of "origin" (remotes r)) in
  fs w !! path = Some (mkWorkdir fl (Some r)) →
  let run := GitRepo.push_to_github fault params w in
  run.1 = Ret (Content (Str ("✅ Successfully pushed to " +:+ GitRepo.remote_url params
                               +:+ " on branch '" +:+ branch +:+ "'.")))
  ∧ fs run.2 !! path = Some (mkWorkdir fl (Some (mkRepo fl hist branch rems)))
  ∧ pushes run.2 = pushes w ++ [mkPush url (branch +:+ ":" +:+ branch) hist].
Proof. apply push_run_on_repository. Qed.

Lemma push_to_github_on_repository_witness :
  let r := mkRepo ["README.md"] [mkCommit "Initial commit" ["README.md"]] "main"
             [("origin", "https://github.com/acme/old.git")] in
  let w := mkWorld {[ "/srv/widgets" := mkWorkdir ["README.md"; "app.py"] (Some r) ]} [] 0 in
  pushes (GitRepo.push_to_github no_fault
            (GitRepo.mkGitPushLocalTOGIT "/srv/widgets" widgets_url "main" (Some "add app"))
            w).2
  = [mkPush "https://github.com/acme/old.git" "main:main"
       [mkCommit "Initial commit" ["README.md"]]].
Proof.
  intros r w.
  apply (proj2 (proj2 (push_to_github_on_repository no_fault
                         (GitRepo.mkGitPushLocalTOGIT "/srv/widgets" widgets_url "main"
                            (Some "add app"))
                         ["README.md"; "app.py"] r w (fun _ => eq_refl) eq_refl))).
Defined.

(** X28.  push_to_github on a directory that holds no repository, when no command
    fails: the repository is initialised, the files are committed in one
    commit, the branch is named, origin is created with remote_url and the
    commit is pushed to it. *)
Theorem push_to_github_first_push (fault : nat → option exn)
    (params : GitRepo.GitPushLocalTOGIT) (fl : list string) (w : world) :
  (∀ n, fault n = None) →
  let path := GitRepo.repo_path params in
  let branch := or_default (Some (GitRepo.branch params)) "main" in
  let msg := or_default (GitRepo.commit_msg params) "Initial commit" in
  let url := GitRepo.remote_url params in
  fs w !! path = Some (mkWorkdir fl None) →
  let run := GitRepo.push_to_github fault params w in
  run.1 = Ret (Content (Str ("✅ Successfully pushed to " +:+ url
                               +:+ " on branch '" +:+ branch +:+ "'.")))
  ∧ fs run.2 !! path
    = Some (mkWorkdir fl (Some (mkRepo fl [mkCommit msg fl] branch [("origin", url)])))
  ∧ pushes run.2 = pushes w ++ [mkPush url (branch +:+ ":" +:+ branch) [mkCommit msg fl]].
Proof. apply push_run_first. Qed.

Lemma push_to_github_first_push_witness :
  let run :=
    GitRepo.push_to_github no_fault
      (GitRepo.mkGitPushLocalTOGIT "/srv/widgets" widgets_url "release" (Some "first"))
      fresh in
  fs run.2 !! "/srv/widgets"
  = Some (mkWorkdir ["README.md"]
            (Some (mkRepo ["README.md"] [mkCommit "first" ["README.md"]] "release"
                     [("origin", widgets_url)]))).
Proof.
  intros run.
  apply (proj1 (proj2 (push_to_github_first_push no_fault
                         (GitRepo.mkGitPushLocalTOGIT "/srv/widgets" widgets_url "release"
                            (Some "first"))
                         ["README.md"] fresh (fun _ => eq_refl) eq_refl))).
Defined.

Lemma push_to_github_missing_path_witness :
  GitRepo.push_to_github no_fault
    (GitRepo.mkGitPushLocalTOGIT "/srv/gadgets" widgets_url "main" None) fresh
  = (Ret (Content (Str "❌ Repo path does not exist.")), fresh).
Proof.
  apply (push_to_github_missing_path no_fault
           (GitRepo.mkGitPushLocalTOGIT "/srv/gadgets" widgets_url "main" None) fresh).
  reflexivity.
Defined.

(** ** push_to_github: a push that fails *)

(** X29.  Nothing is rolled back.  On a directory that holds no repository, when
    the six commands before the push go through and the push fails with
    [e], the run returns the error text of [e], and the repository it has
    initialised and the commit it has made stay; nothing has been pushed. *)
Theorem push_failure_leaves_commit (fault : nat → option exn)
    (params : GitRepo.GitPushLocalTOGIT) (fl : list string) (w : world) (e : exn) :
  let path := GitRepo.repo_path params in
  let branch := or_default (Some (GitRepo.branch params)) "main" in
  let msg := or_default (GitRepo.commit_msg params) "Initial commit" in
  fs w !! path = Some (mkWorkdir fl None) →
  (∀ k, (k < 6)%nat → fault (clock w + k)%nat = None) →
  fault (clock w + 6)%nat = Some e →
  let run := GitRepo.push_to_github fault params w in
  run.1 = Ret (Content (Str ("❌ Error: " +:+ str e)))
  ∧ fs run.2 !! path
    = Some (mkWorkdir fl (Some (mkRepo fl [mkCommit msg fl] branch
                                  [("origin", GitRepo.remote_url params)])))
  ∧ pushes run.2 = pushes w.
Proof.
  intros path branch msg Hfs Hok Hfail run.
  assert (F0 : fault (clock w) = None)
    by (replace (clock w) with (clock w + 0)%nat by lia; apply Hok; lia).
  assert (F1 : fault (S (clock w)) = None)
    by (replace (S (clock w)) with (clock w + 1)%nat by lia; apply Hok; lia).
  assert (F2 : fault (S (S (clock w))) = None)
    by (replace (S (S (clock w))) with (clock w + 2)%nat by lia; apply Hok; lia).
  assert (F3 : fault (S (S (S (clock w)))) = None)
    by (replace (S (S (S (clock w)))) with (clock w + 3)%nat by lia; apply Hok; lia).
  assert (F4 : fault (S (S (S (S (clock w))))) = None)
    by (replace (S (S (S (S (clock w))))) with (clock w + 4)%nat by lia; apply Hok; lia).
  assert (F5 : fault (S (S (S (S (S (clock w)))))) = None)
    by (replace (S (S (S (S (S (clock w)))))) with (clock w + 5)%nat by lia;
        apply Hok; lia).
  assert (F6 : fault (S (S (S (S (S (S (clock w))))))) = Some e)
    by (by replace (S (S (S (S (S (S (clock w))))))) with (clock w + 6)%nat by lia).
  assert (Hw : at_state path (mkWorkdir fl None) (pushes w) (clock w) w) by done.
  set (target := mkWorkdir fl (Some (mkRepo fl [mkCommit msg fl] branch
                                       [("origin", GitRepo.remote_url params)]))).
  set (Q := fun (res : res tool_result) (w' : world) =>
    res = Ret (Content (Str ("❌ Error: " +:+ str e)))
    ∧ fs w' !! path = Some target ∧ pushes w' = pushes w).
  change (post (GitRepo.push_to_github fault params) w Q).
  unfold GitRepo.push_to_github. fold path branch msg.
  apply post_try.
  apply (post_mono _ _ (fun res w' =>
           res = Raise e ∧ fs w' !! path = Some target ∧ pushes w' = pushes w));
    [|by intros res w' (-> & ? & ?)].
  apply post_bind. unfold post at 1. erewrite read_path_exists by eauto. simpl.
  apply post_bind. apply post_try.
  eapply post_mono; [eapply step_Repo_missing; eauto|].
  intros ? ? [-> H1]. simpl.
  eapply post_mono; [eapply step_Repo_init; eauto|].
  intros ? ? [-> H2]. simpl.
  step step_git_add_all.
  apply post_bind. unfold post at 1. erewrite read_head_is_valid by eauto. simpl.
  step step_index_commit. step step_git_branch_M.
  apply post_bind. unfold post at 1. erewrite read_remote_names by eauto. simpl.
  step step_create_remote.
  apply post_bind. eapply post_mono; [unfold push; eapply step_fault; eauto|].
  intros res w' [-> (? & ? & ?)]. simpl. by repeat split.
Qed.

(** Only the push fails: the seventh command of a first push. *)
Lemma push_failure_leaves_commit_witness :
  let fault := fun n => if Nat.eqb n 6 then Some (GitCommandError "rejected") else None in
  let run :=
    GitRepo.push_to_github fault
      (GitRepo.mkGitPushLocalTOGIT "/srv/widgets" widgets_url "main" None) fresh in
  run.1 = Ret (Content (Str "❌ Error: rejected"))
  ∧ fs run.2 !! "/srv/widgets"
    = Some (mkWorkdir ["README.md"]
              (Some (mkRepo ["README.md"] [mkCommit "Initial commit" ["README.md"]] "main"
                       [("origin", widgets_url)])))
  ∧ pushes run.2 = [].
Proof.
  intros fault run.
  apply (push_failure_leaves_commit fault
           (GitRepo.mkGitPushLocalTOGIT "/srv/widgets" widgets_url "main" None)
           ["README.md"] fresh (GitCommandError "rejected")).
  - reflexivity.
  - intros k Hk. do 6 (destruct k as [|k]; [reflexivity|]). lia.
  - reflexivity.
Defined.

(** ** push_to_github: what a run never touches *)

Section Preserved.

(** A relation between the machine before and after that every primitive
    change a command on [path] can make respects. *)
Variable path : string.
Variable R : world → world → Prop.
Hypothesis R_refl : ∀ w, R w w.
Hypothesis R_trans : ∀ w1 w2 w3, R w1 w2 → R w2 w3 → R w1 w3.
Hypothesis R_tick : ∀ w, R w (tick w).
Hypothesis R_set_repo : ∀ w r, R w (set_repo path r w).
Hypothesis R_pushes : ∀ w pushed, R w (mkWorld (fs w) pushed (clock w)).

Variable fault : nat → option exn.

Lemma pres_on_repo {A} (act : repository → res A * repository) (w : world) :
  post (on_repo fault path act) w (fun _ w' => R w w').
Proof.
  unfold on_repo. apply post_command; [auto|].
  unfold post. destruct (repo_at path (tick w)) as [r|]; [|apply R_tick].
  destruct (act r) as [a r']. simpl. eauto.
Qed.

Lemma pres_Repo (w : world) :
  post (Repo fault path) w (fun res w' => R w w' ∧ ∀ repo, res = Ret repo → repo = path).
Proof.
  unfold Repo, on_repo. apply post_command; [by auto|].
  unfold post. destruct (repo_at path (tick w)) as [r|]; simpl.
  - split; [eauto | by intros ? [= <-]].
  - split; [apply R_tick | done].
Qed.

Lemma pres_Repo_init (w : world) :
  post (Repo_init fault path) w
    (fun res w' => R w w' ∧ ∀ repo, res = Ret repo → repo = path).
Proof.
  unfold Repo_init. apply post_command; [by auto|].
  unfold post. destruct (repo_at path (tick w)) as [r|]; simpl.
  - split; [apply R_tick | by intros ? [= <-]].
  - split; [eauto | by intros ? [= <-]].
Qed.

Lemma pres_git_add_all (w : world) :
  post (git_add_all fault path) w (fun _ w' => R w w').
Proof.
  unfold git_add_all. apply post_command; [auto|].
  unfold post. destruct (fs (tick w) !! path) as [[fl [r|]]|]; simpl; eauto.
Qed.

Lemma pres_push (origin : string * string) (refspec : string) (w : world) :
  post (push fault origin refspec) w (fun _ w' => R w w').
Proof.
  unfold push. apply post_command; [auto|].
  unfold post. destruct (repo_at origin.1 (tick w)) as [r|]; simpl; [|apply R_tick].
  destruct (url_of origin.2 (remotes r)); simpl; [|apply R_tick].
  eapply R_trans; [apply R_tick|]. apply (R_pushes (tick w)).
Qed.

(** Sequencing under the relation, from the state [w0] the run started in. *)
Lemma pres_bind {A B} (P : A → Prop) (m : M world A) (k : A → M world B)
    (w0 w : world) :
  R w0 w →
  post m w (fun res w' => R w w' ∧ ∀ a, res = Ret a → P a) →
  (∀ a w', P a → R w0 w' → post (k a) w' (fun _ w'' => R w0 w'')) →
  post (m ≫= k) w (fun _ w'' => R w0 w'').
Proof.
  intros H0 Hm Hk. apply post_bind. eapply post_mono; [exact Hm|].
  intros [a|e] w' [Hw' Ha]; simpl; eauto.
Qed.

Lemma pres_plain {A} (m : M world A) (w : world) :
  post m w (fun _ w' => R w w') →
  post m w (fun res w' => R w w' ∧ ∀ a, res = Ret a → True).
Proof. intros Hm. eapply post_mono; [exact Hm|]. by intros. Qed.

Lemma push_to_github_preserves (params : GitRepo.GitPushLocalTOGIT) (w : world) :
  GitRepo.repo_path params = path →
  R w (GitRepo.push_to_github fault params w).2.
Proof.
  intros Hpath.
  change (post (GitRepo.push_to_github fault params) w (fun _ w' => R w w')).
  unfold GitRepo.push_to_github. rewrite Hpath.
  apply post_try.
  apply (post_mono _ _ (fun _ w' => R w w')); [|by intros [a|e] w' H].
  apply (pres_bind (fun _ => True)); [done | by split | ].
  intros there w1 _ H1.
  destruct (negb there); [by apply post_ret|].
  apply (pres_bind (fun repo => repo = path)); [done | |].
  { apply post_try. eapply post_mono; [apply pres_Repo|].
    intros [repo|e] w2 [H2 Hrepo]; simpl; [by split|].
    destruct (is_InvalidGitRepositoryError e); [|by split].
    eapply post_mono; [apply pres_Repo_init|].
    intros res w3 [H3 Hrepo3]. split; eauto. }
  intros repo w2 -> H2.
  apply (pres_bind (fun _ => True)); [done | apply pres_plain, pres_git_add_all |].
  intros _ w3 _ H3.
  apply (pres_bind (fun _ => True)); [done | by split |].
  intros valid w4 _ H4.
  apply (pres_bind (fun _ => True)); [done | |].
  { destruct (negb valid); [apply pres_plain, pres_on_repo | by split]. }
  intros _ w5 _ H5.
  apply (pres_bind (fun _ => True)); [done | apply pres_plain, pres_on_repo |].
  intros _ w6 _ H6.
  apply (pres_bind (fun _ => True)); [done | by split |].
  intros names w7 _ H7.
  apply (pres_bind (fun _ => True)); [done | |].
  { destruct (negb _); [apply pres_plain, pres_on_repo | by split]. }
  intros origin w8 _ H8.
  apply (pres_bind (fun _ => True)); [done | apply pres_plain, pres_push |].
  intros _ w9 _ H9. by apply post_ret.
Qed.

End Preserved.

(** X30.  push_to_github never writes to the working files of repo_path:
    whatever fails, and whether the repository was there or is initialised
    by the run, the files of the directory are after the run what they were
    before. *)
Theorem push_to_github_keeps_files (fault : nat → option exn)
    (params : GitRepo.GitPushLocalTOGIT) (w : world) :
  let w' := (GitRepo.push_to_github fault params w).2 in
  files <$> fs w' !! GitRepo.repo_path params
  = files <$> fs w !! GitRepo.repo_path params.
Proof.
  intros w'.
  apply (push_to_github_preserves (GitRepo.repo_path params)
           (same_files (GitRepo.repo_path params))); [| | | | |done].
  - by intros w0.
  - intros w1 w2 w3 Hf1 Hf2. unfold same_files in *. by rewrite Hf2, Hf1.
  - by intros w0.
  - intros w0 r. unfold same_files, set_repo.
    destruct (fs w0 !! GitRepo.repo_path params) as [d|] eqn:Hd; [|by rewrite Hd].
    simpl. by rewrite lookup_insert_eq.
  - by intros w0 pushed.
Qed.

(** A first push in which the push itself fails: the repository has been
    initialised and the commit made, the files are as they were. *)
Lemma push_to_github_keeps_files_witness :
  let w' :=
    (GitRepo.push_to_github (fails_at 6 (GitCommandError "rejected"))
       (GitRepo.mkGitPushLocalTOGIT "/srv/widgets" widgets_url "main" None) fresh).2 in
  files <$> fs w' !! "/srv/widgets" = Some ["README.md"].
Proof.
  intros w'.
  exact (push_to_github_keeps_files (fails_at 6 (GitCommandError "rejected"))
           (GitRepo.mkGitPushLocalTOGIT "/srv/widgets" widgets_url "main" None) fresh).
Defined.
